(** * scipy.sparse: the [_data_matrix] mixin and the [mostly_true_matrix] wrapper

    A shallow embedding of [scipy/sparse/data.py] and [scipy/sparse/mtm.py].

    Sparse matrices are mutable Python objects, so they live in a store
    indexed by locations, and every method is a computation in a state and
    exception monad over that store: a copy is a new location, an in-place
    update rewrites a location, an exception leaves the store as it was.

    Embedded from [data.py]: the [dtype] property, [__invert__],
    [__imul__], [__itruediv__], [_relative] with the six comparisons,
    [__and__], [__or__], [__xor__], [astype], [copy], and [max] and [min]
    of [_minmax_mixin].  Embedded from [mtm.py]: the three descriptor
    classes, [__init__], [__invert__], the descriptors of the class body,
    the properties [T] and [__setitem__], and [sum].  The elementwise
    arithmetic of [data.py] ([__abs__], [__neg__], the unary ufuncs) and the
    printing and iteration of [mtm.py] are left out.

    The sparse-matrix library underneath (storage formats, item access,
    conversions, sums) is not part of the two files; [Module Lib] is its
    model, on coordinate lists. *)

From stdpp Require Import base numbers list strings gmap.

Local Open Scope string_scope.
Local Open Scope Z_scope.

(** ** Exceptions and results *)

Inductive exn :=
| NotImplementedError
| TypeError
| IndexError
| ValueError
| AttributeError
| ZeroDivisionError.

Inductive result (A : Type) :=
| Ok (a : A)
| Raise (e : exn).
Arguments Ok {A} a.
Arguments Raise {A} e.

(** ** numpy: dtypes, scalars and one-dimensional buffers *)

Inductive int_width := W8 | W64.

Inductive dtype :=
| DBool
| DInt (w : int_width).

Global Instance int_width_eq_dec : EqDecision int_width.
Proof. solve_decision. Defined.
Global Instance dtype_eq_dec : EqDecision dtype.
Proof. solve_decision. Defined.

(** A numeric scalar: [SBool] is [numpy.bool_] (or a Python [bool] that
    numpy has taken in), [SInt] an integer. *)
Inductive scalar :=
| SBool (b : bool)
| SInt (z : Z).

(** The buffer of stored entries; its constructor is its dtype. *)
Inductive ndarray :=
| BoolArr (l : list bool)
| IntArr (w : int_width) (l : list Z).

Definition arr_dtype (a : ndarray) : dtype :=
  match a with
  | BoolArr _ => DBool
  | IntArr w _ => DInt w
  end.

Definition arr_len (a : ndarray) : nat :=
  match a with
  | BoolArr l => length l
  | IntArr _ l => length l
  end.

Definition b2z (b : bool) : Z := if b then 1 else 0.

Definition scalar_num (s : scalar) : Z :=
  match s with
  | SBool b => b2z b
  | SInt z => z
  end.

(** Two's complement wrap-around of an integer dtype. *)
Definition width_bits (w : int_width) : Z :=
  match w with W8 => 8 | W64 => 64 end.

Definition wrap (w : int_width) (z : Z) : Z :=
  let m := 2 ^ width_bits w in
  (z + m / 2) mod m - m / 2.

(** [dtype.type(x)]: the scalar of dtype [t] made from a number. *)
Definition dtype_type (t : dtype) (z : Z) : scalar :=
  match t with
  | DBool => SBool (negb (z =? 0))
  | DInt w => SInt (wrap w z)
  end.

(** The entries of a buffer as scalars. *)
Definition arr_items (a : ndarray) : list scalar :=
  match a with
  | BoolArr l => SBool <$> l
  | IntArr _ l => SInt <$> l
  end.

(** [a.astype(t)]: always a new buffer. *)
Definition arr_astype (a : ndarray) (t : dtype) : ndarray :=
  match t, a with
  | DBool, BoolArr l => BoolArr l
  | DBool, IntArr _ l => BoolArr ((fun z => negb (z =? 0)) <$> l)
  | DInt w, BoolArr l => IntArr w (b2z <$> l)
  | DInt w, IntArr _ l => IntArr w (wrap w <$> l)
  end.

(** [~a]: logical not on a boolean buffer, bitwise not on integers. *)
Definition arr_invert (a : ndarray) : ndarray :=
  match a with
  | BoolArr l => BoolArr (negb <$> l)
  | IntArr w l => IntArr w ((fun z => - z - 1) <$> l)
  end.

(** [~s] on a numpy scalar, and [np.invert(s)]. *)
Definition scalar_invert (s : scalar) : scalar :=
  match s with
  | SBool b => SBool (negb b)
  | SInt z => SInt (- z - 1)
  end.

(** The six rich comparisons of the [operator] module. *)
Inductive relop := OpLt | OpLe | OpEq | OpNe | OpGt | OpGe.

Definition relop_num (op : relop) (x y : Z) : bool :=
  match op with
  | OpLt => x <? y
  | OpLe => x <=? y
  | OpEq => x =? y
  | OpNe => negb (x =? y)
  | OpGt => x >? y
  | OpGe => x >=? y
  end.

(** [op(x, y)] on scalars compares numerically ([True] is 1). *)
Definition relop_scalar (op : relop) (x y : scalar) : bool :=
  relop_num op (scalar_num x) (scalar_num y).

(** [op(a, s)]: elementwise comparison of a buffer with a scalar. *)
Definition relop_arr (op : relop) (a : ndarray) (s : scalar) : ndarray :=
  BoolArr ((fun x => relop_scalar op x s) <$> arr_items a).

(** In-place [a *= s]: the product is cast back to the dtype of [a]. *)
Definition arr_imul (a : ndarray) (s : scalar) : ndarray :=
  match a with
  | BoolArr l => BoolArr ((fun b => negb (b2z b * scalar_num s =? 0)) <$> l)
  | IntArr w l => IntArr w ((fun z => wrap w (z * scalar_num s)) <$> l)
  end.

(** [np.max(a)], [np.min(a)]: [ValueError] on an empty buffer. *)
Definition scalar_max (x y : scalar) : scalar :=
  if scalar_num x <? scalar_num y then y else x.
Definition scalar_min (x y : scalar) : scalar :=
  if scalar_num y <? scalar_num x then y else x.

Definition np_max (a : ndarray) : result scalar :=
  match arr_items a with
  | [] => Raise ValueError
  | x :: l => Ok (foldl scalar_max x l)
  end.

Definition np_min (a : ndarray) : result scalar :=
  match arr_items a with
  | [] => Raise ValueError
  | x :: l => Ok (foldl scalar_min x l)
  end.

(** Python's builtin [max(a, b)] keeps [a] unless [b > a]; [min(a, b)]
    keeps [a] unless [b < a]. *)
Definition py_max (a b : scalar) : scalar :=
  if relop_scalar OpGt b a then b else a.
Definition py_min (a b : scalar) : scalar :=
  if relop_scalar OpLt b a then b else a.

(** Assigning [a.dtype = t] reinterprets the bytes of the buffer in place
    (little-endian); the byte count must be a multiple of the new item
    size. *)
Definition itemsize (t : dtype) : nat :=
  match t with
  | DBool | DInt W8 => 1
  | DInt W64 => 8
  end.

Definition le_bytes (n : nat) (z : Z) : list Z :=
  map (fun i => (z / 2 ^ (8 * Z.of_nat i)) mod 256) (seq 0 n).

Fixpoint le_value (bs : list Z) : Z :=
  match bs with
  | [] => 0
  | b :: r => b + 256 * le_value r
  end.

Fixpoint chunks (n fuel : nat) (l : list Z) : list (list Z) :=
  match fuel, l with
  | S f, _ :: _ => take n l :: chunks n f (drop n l)
  | _, _ => []
  end.

Definition arr_bytes (a : ndarray) : list Z :=
  match a with
  | BoolArr l => map b2z l
  | IntArr W8 l => flat_map (le_bytes 1) l
  | IntArr W64 l => flat_map (le_bytes 8) l
  end.

Definition arr_of_bytes (t : dtype) (bs : list Z) : ndarray :=
  match t with
  | DBool => BoolArr ((fun b => negb (b =? 0)) <$> bs)
  | DInt W8 => IntArr W8 (wrap W8 <$> bs)
  | DInt W64 => IntArr W64 ((fun c => wrap W64 (le_value c)) <$> chunks 8 (length bs) bs)
  end.

Definition arr_set_dtype (a : ndarray) (t : dtype) : result ndarray :=
  let bs := arr_bytes a in
  if (length bs mod itemsize t =? 0)%nat then Ok (arr_of_bytes t bs)
  else Raise ValueError.

(** Two-dimensional dense arrays, as [toarray()] returns them. *)
Inductive dense :=
| BoolMat (rows : list (list bool))
| IntMat (w : int_width) (rows : list (list Z)).

Definition dense_invert (d : dense) : dense :=
  match d with
  | BoolMat rows => BoolMat (map (map negb) rows)
  | IntMat w rows => IntMat w (map (map (fun z => - z - 1)) rows)
  end.

(** ** Sparse matrices and the store *)

Inductive fmt := CSR | CSC | COO | BSR | DIA | DOK | LIL.

Global Instance fmt_eq_dec : EqDecision fmt.
Proof. solve_decision. Defined.

(** Modelled from the spec: the sparse matrix classes
    ([scipy.sparse.base.spmatrix] and the format modules) are not among
    the sources; the spec gives a sparse matrix a [data] buffer, a [dtype],
    a [shape] and [nnz], the count of explicitly stored entries.  The state
    of one matrix object is its storage format, its shape, the coordinates
    of the stored entries (the sparsity pattern) and the [data] buffer,
    entry [n] of [data] sitting at coordinate [n]; the dtype is that of the
    buffer. *)
Record spmatrix := SpMatrix {
  sp_format : fmt;
  sp_shape : nat * nat;
  sp_coords : list (nat * nat);
  sp_data : ndarray
}.

Definition loc := nat.

(** A [mostly_true_matrix] object: its one attribute. *)
Record mtm := Mtm { negative : loc }.

(** Python values that flow through the two modules. *)
Inductive value :=
| VNone
| VScalar (s : scalar)
| VTuple (a b : nat)                  (* a shape, or an index pair *)
| VDtype (t : dtype)
| VFormat (f : fmt)
| VArray (a : ndarray)
| VDense (d : dense)
| VCounts (l : list Z)                (* sums along an axis *)
| VSpm (l : loc)
| VMtm (w : mtm)
| VMethod (l : loc) (name : string)   (* bound method of a sparse matrix *)
| VInverted (delegate : value)        (* closure [fn] of _delegate_inverted *)
| VNocopy (delegate : value)          (* closure [fn] of _delegate_mtm_nocopy *)
| VSetitem (delegate : value).        (* closure [fn] of the __setitem__ property *)

(** Computations: a store of sparse matrices is threaded through, and an
    exception leaves the store as it was when it was raised. *)
Definition M (A : Type) : Type := gmap loc spmatrix → result A * gmap loc spmatrix.

Definition ret {A} (a : A) : M A := fun h => (Ok a, h).
Definition raise {A} (e : exn) : M A := fun h => (Raise e, h).
Definition bind {A B} (c : M A) (k : A → M B) : M B :=
  fun h =>
    match c h with
    | (Ok a, h') => k a h'
    | (Raise e, h') => (Raise e, h')
    end.
Definition lift {A} (r : result A) : M A := fun h => (r, h).

Global Instance M_ret : MRet M := @ret.
Global Instance M_bind : MBind M := fun A B k c => bind c k.

(** Reading an object; a dangling location cannot arise in Python and is
    reported as [AttributeError]. *)
Definition load (l : loc) : M spmatrix :=
  fun h =>
    match h !! l with
    | Some m => (Ok m, h)
    | None => (Raise AttributeError, h)
    end.

Definition store (l : loc) (m : spmatrix) : M unit :=
  fun h => (Ok tt, <[l := m]> h).

(** Creating an object: it gets a location that is not in use. *)
Definition alloc (m : spmatrix) : M loc :=
  fun h => let l := fresh (dom h) in (Ok l, <[l := m]> h).

Definition with_data_of (m : spmatrix) (d : ndarray) : spmatrix :=
  {| sp_format := sp_format m; sp_shape := sp_shape m;
     sp_coords := sp_coords m; sp_data := d |}.

Definition sp_dtype (m : spmatrix) : dtype := arr_dtype (sp_data m).

(** [nnz]: the number of explicitly stored entries. *)
Definition sp_nnz (m : spmatrix) : nat := arr_len (sp_data m).

(** [np.product(shape)]. *)
Definition shape_product (s : nat * nat) : nat := (s.1 * s.2)%nat.

(** ** The sparse-matrix library underneath

    [scipy.sparse.base], the storage formats and [sputils] are not among
    the two files.  This module is the model of what the two files use of
    them.  A matrix is kept in canonical form: a coordinate is stored at
    most once, and reading a coordinate takes its stored entry, or the zero
    of the dtype where nothing is stored. *)
Module Lib.

(** [_data_matrix] is the base of the five formats with a [data] buffer;
    [dok_matrix] and [lil_matrix] derive from [spmatrix] alone. *)
Definition is_data_matrix (f : fmt) : bool :=
  match f with
  | DOK | LIL => false
  | _ => true
  end.

(** Item access per format: [csr], [csc], [dok] and [lil] implement
    [__getitem__] and [__setitem__]; [bsr] defines both to raise
    [NotImplementedError]; [coo] and [dia] define neither. *)
Inductive item_access := ItemAccess | ItemUnimplemented | ItemAbsent.

Definition item_access_of (f : fmt) : item_access :=
  match f with
  | CSR | CSC | DOK | LIL => ItemAccess
  | BSR => ItemUnimplemented
  | COO | DIA => ItemAbsent
  end.

(** The entry stored at coordinate [k], in parallel lists. *)
Fixpoint get_at {A} (k : nat * nat) (cs : list (nat * nat)) (xs : list A)
  : option A :=
  match cs, xs with
  | c :: cs', x :: xs' => if decide (c = k) then Some x else get_at k cs' xs'
  | _, _ => None
  end.

(** Storing [x] at [k]: in place where [k] is stored already, as a new
    entry at the end otherwise. *)
Fixpoint set_at {A} (k : nat * nat) (x : A) (cs : list (nat * nat))
  (xs : list A) : list (nat * nat) * list A :=
  match cs, xs with
  | c :: cs', y :: xs' =>
      if decide (c = k) then (c :: cs', x :: xs')
      else let r := set_at k x cs' xs' in (c :: r.1, y :: r.2)
  | _, _ => ([k], [x])
  end.

Definition in_range (s k : nat * nat) : bool :=
  (k.1 <? s.1)%nat && (k.2 <? s.2)%nat.

Definition bool_at (cs : list (nat * nat)) (l : list bool) (k : nat * nat) : bool :=
  default false (get_at k cs l).
Definition int_at (cs : list (nat * nat)) (l : list Z) (k : nat * nat) : Z :=
  default 0 (get_at k cs l).

(** The element of the matrix at [k], implicit zeros included. *)
Definition element (m : spmatrix) (k : nat * nat) : scalar :=
  match sp_data m with
  | BoolArr l => SBool (bool_at (sp_coords m) l k)
  | IntArr _ l => SInt (int_at (sp_coords m) l k)
  end.

(** The grid of all values of [f] over a shape. *)
Definition grid {A} (f : nat * nat → A) (s : nat * nat) : list (list A) :=
  map (fun i => map (fun j => f (i, j)) (seq 0 s.2)) (seq 0 s.1).

(** [m.toarray()]. *)
Definition toarray (m : spmatrix) : dense :=
  match sp_data m with
  | BoolArr l => BoolMat (grid (bool_at (sp_coords m) l) (sp_shape m))
  | IntArr w l => IntMat w (grid (int_at (sp_coords m) l) (sp_shape m))
  end.

(** [m.diagonal()]. *)
Definition diagonal (m : spmatrix) : ndarray :=
  let n := seq 0 (Nat.min (sp_shape m).1 (sp_shape m).2) in
  match sp_data m with
  | BoolArr l => BoolArr (map (fun i => bool_at (sp_coords m) l (i, i)) n)
  | IntArr w l => IntArr w (map (fun i => int_at (sp_coords m) l (i, i)) n)
  end.

(** The stored entries with their coordinates. *)
Definition entries (m : spmatrix) : list ((nat * nat) * scalar) :=
  zip (sp_coords m) (arr_items (sp_data m)).

Definition sum_list (l : list Z) : Z := foldr Z.add 0 l.

(** [m.sum()]: the sum of the stored entries, [True] counting 1. *)
Definition sum_all (m : spmatrix) : Z :=
  sum_list (scalar_num <$> arr_items (sp_data m)).

(** [m.sum(0)] and [m.sum(1)]: one sum per column, one per row. *)
Definition sum_where (m : spmatrix) (p : nat * nat → bool) : Z :=
  sum_list ((fun e => scalar_num e.2) <$> filter (fun e => p e.1 = true) (entries m)).

Definition sum_axis0 (m : spmatrix) : list Z :=
  map (fun j => sum_where m (fun k => (k.2 =? j)%nat)) (seq 0 (sp_shape m).2).
Definition sum_axis1 (m : spmatrix) : list Z :=
  map (fun i => sum_where m (fun k => (k.1 =? i)%nat)) (seq 0 (sp_shape m).1).

(** [m.sum(axis)]. *)
Definition sum (m : spmatrix) (axis : value) : result value :=
  match axis with
  | VNone => Ok (VScalar (SInt (sum_all m)))
  | VScalar s =>
      if scalar_num s =? 0 then Ok (VCounts (sum_axis0 m))
      else if scalar_num s =? 1 then Ok (VCounts (sum_axis1 m))
      else Raise ValueError
  | _ => Raise ValueError
  end.

(** [m[key]] for the formats with item access.  The model reads single
    elements, [m[i, j]]; any other key is answered as a key the format
    cannot interpret, with [IndexError]. *)
Definition getitem (m : spmatrix) (key : value) : result value :=
  match item_access_of (sp_format m) with
  | ItemAbsent => Raise TypeError
  | ItemUnimplemented => Raise NotImplementedError
  | ItemAccess =>
      match key with
      | VTuple i j =>
          if in_range (sp_shape m) (i, j) then Ok (VScalar (element m (i, j)))
          else Raise IndexError
      | _ => Raise IndexError
      end
  end.

(** The matrix after [m[i, j] = x]: [x] is cast to the dtype of [m]. *)
Definition with_entry (m : spmatrix) (k : nat * nat) (x : scalar) : spmatrix :=
  match sp_data m with
  | BoolArr l =>
      let r := set_at k (negb (scalar_num x =? 0)) (sp_coords m) l in
      {| sp_format := sp_format m; sp_shape := sp_shape m;
         sp_coords := r.1; sp_data := BoolArr r.2 |}
  | IntArr w l =>
      let r := set_at k (wrap w (scalar_num x)) (sp_coords m) l in
      {| sp_format := sp_format m; sp_shape := sp_shape m;
         sp_coords := r.1; sp_data := IntArr w r.2 |}
  end.

(** [m[key] = val], in place. *)
Definition setitem (l : loc) (key val : value) : M value :=
  m ← load l;
  match item_access_of (sp_format m) with
  | ItemAbsent => raise TypeError
  | ItemUnimplemented => raise NotImplementedError
  | ItemAccess =>
      match key, val with
      | VTuple i j, VScalar x =>
          if in_range (sp_shape m) (i, j)
          then store l (with_entry m (i, j) x);; mret VNone
          else raise IndexError
      | VTuple _ _, _ => raise ValueError
      | _, _ => raise IndexError
      end
  end.

(** [m.asformat(f)] and [m.tocsr()], [m.tocsc()], ...: the matrix itself
    when it has the format already, a new matrix with the same entries
    otherwise. *)
Definition asformat (l : loc) (f : fmt) : M loc :=
  m ← load l;
  if decide (sp_format m = f) then mret l
  else alloc {| sp_format := f; sp_shape := sp_shape m;
                sp_coords := sp_coords m; sp_data := sp_data m |}.

Definition swap (k : nat * nat) : nat * nat := (k.2, k.1).

Definition transposed_format (f : fmt) : fmt :=
  match f with
  | CSR => CSC
  | CSC => CSR
  | _ => f
  end.

(** [m.transpose()]: a new matrix. *)
Definition transpose (l : loc) : M loc :=
  m ← load l;
  alloc {| sp_format := transposed_format (sp_format m);
           sp_shape := swap (sp_shape m);
           sp_coords := swap <$> sp_coords m; sp_data := sp_data m |}.

(** Keeping the entries whose coordinate satisfies [p], moved by [f]. *)
Fixpoint select {A} (p : nat * nat → bool) (cs : list (nat * nat)) (xs : list A)
  : list (nat * nat) * list A :=
  match cs, xs with
  | c :: cs', x :: xs' =>
      let r := select p cs' xs' in
      if p c then (c :: r.1, x :: r.2) else r
  | _, _ => ([], [])
  end.

Definition select_data (p : nat * nat → bool) (cs : list (nat * nat)) (d : ndarray)
  : list (nat * nat) * ndarray :=
  match d with
  | BoolArr l => let r := select p cs l in (r.1, BoolArr r.2)
  | IntArr w l => let r := select p cs l in (r.1, IntArr w r.2)
  end.

(** [m.getrow(i)]: row [i] as a new 1 x n matrix in csr format. *)
Definition getrow (l : loc) (i : value) : M loc :=
  m ← load l;
  match i with
  | VScalar (SInt z) =>
      if (0 <=? z) && (z <? Z.of_nat (sp_shape m).1) then
        let r := select_data (fun k => (k.1 =? Z.to_nat z)%nat) (sp_coords m) (sp_data m) in
        alloc {| sp_format := CSR; sp_shape := (1%nat, (sp_shape m).2);
                 sp_coords := (fun k => (0%nat, k.2)) <$> r.1; sp_data := r.2 |}
      else raise IndexError
  | _ => raise TypeError
  end.

(** [m.getcol(j)]: column [j] as a new m x 1 matrix in csc format. *)
Definition getcol (l : loc) (j : value) : M loc :=
  m ← load l;
  match j with
  | VScalar (SInt z) =>
      if (0 <=? z) && (z <? Z.of_nat (sp_shape m).2) then
        let r := select_data (fun k => (k.2 =? Z.to_nat z)%nat) (sp_coords m) (sp_data m) in
        alloc {| sp_format := CSC; sp_shape := ((sp_shape m).1, 1%nat);
                 sp_coords := (fun k => (k.1, 0%nat)) <$> r.1; sp_data := r.2 |}
      else raise IndexError
  | _ => raise TypeError
  end.

(** [sputils.isscalarlike]: numeric scalars. *)
Definition isscalarlike (x : value) : bool :=
  match x with
  | VScalar _ => true
  | _ => false
  end.

End Lib.

(** ** scipy/sparse/data.py and scipy/sparse/mtm.py

    The two modules import each other's classes, so their methods are
    given in dependency order: [dm_] is a method of [_data_matrix], [mtm_]
    one of [mostly_true_matrix]. *)

(** [_with_data(data, copy)], which every subclass of [_data_matrix]
    provides: a new matrix with the sparsity pattern of [self] and the
    buffer [data].  [copy] says whether the index arrays are copied too,
    which no operation of the model observes. *)
Definition _with_data (l : loc) (data : ndarray) (copy : bool) : M loc :=
  m ← load l; alloc (with_data_of m data).

(** [_data_matrix._get_dtype]: [self.data.dtype]. *)
Definition _get_dtype (l : loc) : M dtype :=
  m ← load l; mret (arr_dtype (sp_data m)).

(** [_data_matrix._set_dtype]: [self.data.dtype = newtype]. *)
Definition _set_dtype (l : loc) (newtype : dtype) : M unit :=
  m ← load l;
  d ← lift (arr_set_dtype (sp_data m) newtype);
  store l (with_data_of m d).

(** [_data_matrix.astype]. *)
Definition dm_astype (l : loc) (t : dtype) : M loc :=
  m ← load l; _with_data l (arr_astype (sp_data m) t) false.

(** [_data_matrix.copy]; [data.copy()] has the entries of [data]. *)
Definition dm_copy (l : loc) : M loc :=
  m ← load l; _with_data l (sp_data m) true.

(** [x.dtype], [x.astype(t)] and [x.copy()] on any sparse matrix: those of
    [_data_matrix] above where the format derives from it, those of
    [spmatrix] for [dok] and [lil], which the model gives the same
    meaning. *)
Definition sp_get_dtype (l : loc) : M dtype := _get_dtype l.

Definition sp_astype (l : loc) (t : dtype) : M loc :=
  m ← load l;
  if Lib.is_data_matrix (sp_format m) then dm_astype l t
  else alloc (with_data_of m (arr_astype (sp_data m) t)).

Definition sp_copy (l : loc) : M loc :=
  m ← load l;
  if Lib.is_data_matrix (sp_format m) then dm_copy l
  else alloc m.

(** [mostly_true_matrix.__init__(negative, copy=True)]. *)
Definition mtm_init (negative : loc) (copy : bool) : M mtm :=
  t ← sp_get_dtype negative;
  if decide (t ≠ DBool) then
    negative' ← sp_astype negative DBool; mret (Mtm negative')
  else if copy then
    negative' ← sp_copy negative; mret (Mtm negative')
  else mret (Mtm negative).

(** [mostly_true_matrix.__invert__]. *)
Definition mtm_invert (self : mtm) : M value :=
  l ← sp_copy (negative self); mret (VSpm l).

(** [_data_matrix.__invert__]. *)
Definition dm_invert (self : loc) : M value :=
  t ← _get_dtype self;
  if decide (t = DBool) then
    w ← mtm_init self true; mret (VMtm w)
  else
    m ← load self;
    l ← _with_data self (arr_invert (sp_data m)) false; mret (VSpm l).

(** [_data_matrix.__imul__]: [self *= other]. *)
Definition dm_imul (self : loc) (other : value) : M value :=
  if Lib.isscalarlike other then
    match other with
    | VScalar s =>
        m ← load self;
        store self (with_data_of m (arr_imul (sp_data m) s));;
        mret (VSpm self)
    | _ => raise TypeError
    end
  else raise NotImplementedError.

Section TrueDivision.

(** [recip = 1.0 / other; data *= recip] goes through a binary64
    reciprocal, which is outside this model; the outcome of the two
    lines on a buffer is taken as given. *)
Variable scale_by_reciprocal : ndarray → scalar → result ndarray.

(** [_data_matrix.__itruediv__]: [self /= other]. *)
Definition dm_itruediv (self : loc) (other : value) : M value :=
  if Lib.isscalarlike other then
    match other with
    | VScalar s =>
        m ← load self;
        d ← lift (scale_by_reciprocal (sp_data m) s);
        store self (with_data_of m d);;
        mret (VSpm self)
    | _ => raise TypeError
    end
  else raise NotImplementedError.

End TrueDivision.

(** [_data_matrix._relative]. *)
Definition _relative (self : loc) (other : value) (op : relop) : M value :=
  if Lib.isscalarlike other then
    match other with
    | VScalar s =>
        m ← load self;
        let data := relop_arr op (sp_data m) s in
        if relop_scalar op (SInt 0) s then
          l ← _with_data self (arr_invert data) false;
          w ← mtm_init l true; mret (VMtm w)
        else
          l ← _with_data self data false; mret (VSpm l)
    | _ => raise TypeError
    end
  else raise NotImplementedError.

Definition dm_lt (self : loc) (other : value) : M value := _relative self other OpLt.
Definition dm_le (self : loc) (other : value) : M value := _relative self other OpLe.
Definition dm_eq (self : loc) (other : value) : M value := _relative self other OpEq.
Definition dm_ne (self : loc) (other : value) : M value := _relative self other OpNe.
Definition dm_gt (self : loc) (other : value) : M value := _relative self other OpGt.
Definition dm_ge (self : loc) (other : value) : M value := _relative self other OpGe.

(** *** Operands of [&], [|] and [^]

    The three operators turn both operands into booleans and add them with
    the [+] of the library, which the model gives for two sparse matrices
    and for a sparse and a dense matrix of one shape. *)

Definition upcast (t1 t2 : dtype) : dtype :=
  match t1, t2 with
  | DInt W64, _ | _, DInt W64 => DInt W64
  | DInt W8, _ | _, DInt W8 => DInt W8
  | DBool, DBool => DBool
  end.

Definition arr_of_nums (t : dtype) (l : list Z) : ndarray :=
  match t with
  | DBool => BoolArr ((fun z => negb (z =? 0)) <$> l)
  | DInt w => IntArr w (wrap w <$> l)
  end.

Definition dense_dtype (d : dense) : dtype :=
  match d with
  | BoolMat _ => DBool
  | IntMat w _ => DInt w
  end.

Definition dense_nums (d : dense) : list (list Z) :=
  match d with
  | BoolMat rows => map (map b2z) rows
  | IntMat _ rows => rows
  end.

Definition dense_of_nums (t : dtype) (rows : list (list Z)) : dense :=
  match t with
  | DBool => BoolMat (map (map (fun z => negb (z =? 0))) rows)
  | DInt w => IntMat w (map (map (wrap w)) rows)
  end.

Definition dense_shape (d : dense) : nat * nat :=
  let rows := dense_nums d in
  (length rows, match rows with [] => 0%nat | r :: _ => length r end).

Definition dense_at (d : dense) (k : nat * nat) : Z :=
  default 0 (dense_nums d !! k.1 ≫= fun r => r !! k.2).

Definition sparse_plus_sparse (a b : spmatrix) : result spmatrix :=
  if decide (sp_shape a = sp_shape b) then
    let extra := filter (fun k => k ∉ sp_coords a) (sp_coords b) in
    let cs := (sp_coords a ++ extra)%list in
    let nums := map (fun k => scalar_num (Lib.element a k) + scalar_num (Lib.element b k)) cs in
    Ok {| sp_format := CSR; sp_shape := sp_shape a; sp_coords := cs;
          sp_data := arr_of_nums (upcast (sp_dtype a) (sp_dtype b)) nums |}
  else Raise ValueError.

Definition sparse_plus_dense (a : spmatrix) (d : dense) : result dense :=
  if decide (sp_shape a = dense_shape d) then
    Ok (dense_of_nums (upcast (sp_dtype a) (dense_dtype d))
          (Lib.grid (fun k => scalar_num (Lib.element a k) + dense_at d k) (sp_shape a)))
  else Raise ValueError.

Definition py_add (x y : value) : M value :=
  match x, y with
  | VSpm la, VSpm lb =>
      a ← load la; b ← load lb;
      s ← lift (sparse_plus_sparse a b);
      l ← alloc s; mret (VSpm l)
  | VSpm la, VDense d =>
      a ← load la;
      r ← lift (sparse_plus_dense a d); mret (VDense r)
  | _, _ => raise NotImplementedError
  end.

(** [hasattr(other, 'astype')] and [np.asarray(other)]. *)
Definition has_astype (x : value) : bool :=
  match x with
  | VScalar _ | VArray _ | VDense _ | VSpm _ => true
  | _ => false
  end.

Definition np_asarray (x : value) : value :=
  match x with
  | VTuple a b => VArray (IntArr W64 [Z.of_nat a; Z.of_nat b])
  | _ => x
  end.

Definition value_astype (x : value) (t : dtype) : M value :=
  match x with
  | VScalar s => mret (VScalar (dtype_type t (scalar_num s)))
  | VArray a => mret (VArray (arr_astype a t))
  | VDense d => mret (VDense (dense_of_nums t (dense_nums d)))
  | VSpm l => l' ← sp_astype l t; mret (VSpm l')
  | _ => raise TypeError
  end.

(** [x op k] for the sum [x] of two such operands and a number [k]: a
    sparse sum compares through [_relative], a dense one elementwise. *)
Definition compare_with (x : value) (op : relop) (k : Z) : M value :=
  match x with
  | VSpm l => _relative l (VScalar (SInt k)) op
  | VDense d => mret (VDense (BoolMat (map (map (fun z => relop_num op z k)) (dense_nums d))))
  | _ => raise TypeError
  end.

(** [self.astype(bool).astype(int) + other.astype(bool)]. *)
Definition bool_sum (self : loc) (other : value) : M value :=
  let other := if has_astype other then other else np_asarray other in
  a ← dm_astype self DBool;
  b ← dm_astype a (DInt W64);
  o ← value_astype other DBool;
  py_add (VSpm b) o.

(** [self[other]] on a sparse matrix. *)
Definition sp_subscript (self : loc) (key : value) : M value :=
  m ← load self; lift (Lib.getitem m key).

(** [_data_matrix.__and__]: with a [mostly_true_matrix] it tries
    [self[other]] and turns an [IndexError] into [NotImplementedError]. *)
Definition dm_and (self : loc) (other : value) : M value :=
  match other with
  | VMtm _ =>
      fun h =>
        match sp_subscript self other h with
        | (Raise IndexError, h') => (Raise NotImplementedError, h')
        | r => r
        end
  | _ => s ← bool_sum self other; compare_with s OpEq 2
  end.

(** [_data_matrix.__or__]. *)
Definition dm_or (self : loc) (other : value) : M value :=
  match other with
  | VMtm _ => raise NotImplementedError
  | _ => s ← bool_sum self other; compare_with s OpGt 0
  end.

(** [_data_matrix.__xor__]. *)
Definition dm_xor (self : loc) (other : value) : M value :=
  match other with
  | VMtm _ => raise NotImplementedError
  | _ => s ← bool_sum self other; compare_with s OpEq 1
  end.

(** [x op other] for a [_data_matrix] [x]: Python sends each comparison
    operator to its method. *)
Definition py_compare (op : relop) : loc → value → M value :=
  match op with
  | OpLt => dm_lt
  | OpLe => dm_le
  | OpEq => dm_eq
  | OpNe => dm_ne
  | OpGt => dm_gt
  | OpGe => dm_ge
  end.

(** *** [_minmax_mixin] *)

(** [_minmax_mixin.max]. *)
Definition minmax_max (self : loc) : M scalar :=
  m ← load self;
  let zero := dtype_type (sp_dtype m) 0 in
  if (sp_nnz m =? 0)%nat then mret zero
  else
    mx ← lift (np_max (sp_data m));
    if negb (sp_nnz m =? shape_product (sp_shape m))%nat
    then mret (py_max zero mx)
    else mret mx.

(** [_minmax_mixin.min]. *)
Definition minmax_min (self : loc) : M scalar :=
  m ← load self;
  let zero := dtype_type (sp_dtype m) 0 in
  if (sp_nnz m =? 0)%nat then mret zero
  else
    mn ← lift (np_min (sp_data m));
    if negb (sp_nnz m =? shape_product (sp_shape m))%nat
    then mret (py_min zero mn)
    else mret mn.

(** *** Attributes and calls

    [getattr] and [setattr] on a sparse matrix, and the call of one of its
    bound methods, as [mtm.py] reaches them through its descriptors. *)

Fixpoint lookup_name {A} (name : string) (d : list (string * A)) : option A :=
  match d with
  | [] => None
  | (n, a) :: d' => if String.eqb n name then Some a else lookup_name name d'
  end.

Inductive sp_attribute :=
| AShape | ADtype | ASize | AFormat
| ALen | AAsformat | ATo (f : fmt) | ACopy | ATranspose
| AGetitem | ASetitem | AGetrow | AGetcol | ADiagonal | AToarray | ASum | AAstype.

Definition sp_class : list (string * sp_attribute) :=
  [ ("shape", AShape); ("dtype", ADtype); ("size", ASize); ("format", AFormat);
    ("__len__", ALen); ("asformat", AAsformat);
    ("tobsr", ATo BSR); ("tocoo", ATo COO); ("tocsc", ATo CSC); ("tocsr", ATo CSR);
    ("todia", ATo DIA); ("todok", ATo DOK); ("tolil", ATo LIL);
    ("copy", ACopy); ("transpose", ATranspose);
    ("__getitem__", AGetitem); ("__setitem__", ASetitem);
    ("getrow", AGetrow); ("getcol", AGetcol);
    ("diagonal", ADiagonal); ("toarray", AToarray); ("sum", ASum);
    ("astype", AAstype) ].

(** [getattr(x, name)] for a sparse matrix [x]. *)
Definition sp_getattr (l : loc) (name : string) : M value :=
  m ← load l;
  match lookup_name name sp_class with
  | Some AShape => mret (VTuple (sp_shape m).1 (sp_shape m).2)
  | Some ADtype => t ← sp_get_dtype l; mret (VDtype t)
  | Some ASize => mret (VScalar (SInt (Z.of_nat (sp_nnz m))))
  | Some AFormat => mret (VFormat (sp_format m))
  | Some (AGetitem | ASetitem) =>
      match Lib.item_access_of (sp_format m) with
      | Lib.ItemAbsent => raise AttributeError
      | _ => mret (VMethod l name)
      end
  | Some _ => mret (VMethod l name)
  | None => raise AttributeError
  end.

(** [setattr(x, name, v)] for a sparse matrix [x]: [dtype] goes to
    [_set_dtype]; [shape] accepts the shape the matrix has, reshaping in
    place being left unimplemented by the formats; nothing else is
    assignable in the model. *)
Definition sp_setattr (l : loc) (name : string) (v : value) : M unit :=
  m ← load l;
  match lookup_name name sp_class, v with
  | Some ADtype, VDtype t => _set_dtype l t
  | Some ADtype, _ => raise TypeError
  | Some AShape, VTuple a b =>
      if decide ((a, b) = sp_shape m) then mret tt
      else if (a =? 0)%nat || (b =? 0)%nat then raise ValueError
      else raise NotImplementedError
  | Some AShape, _ => raise TypeError
  | _, _ => raise AttributeError
  end.

(** The call [x.name(args)] of a method of a sparse matrix [x]. *)
Definition sp_call (l : loc) (name : string) (args : list value) : M value :=
  m ← load l;
  match lookup_name name sp_class, args with
  | Some ALen, [] => raise TypeError
  | Some AAsformat, [VFormat f] => l' ← Lib.asformat l f; mret (VSpm l')
  | Some (ATo f), [] => l' ← Lib.asformat l f; mret (VSpm l')
  | Some ACopy, [] => l' ← sp_copy l; mret (VSpm l')
  | Some ATranspose, [] => l' ← Lib.transpose l; mret (VSpm l')
  | Some AGetitem, [key] => lift (Lib.getitem m key)
  | Some ASetitem, [key; val] => Lib.setitem l key val
  | Some AGetrow, [i] => l' ← Lib.getrow l i; mret (VSpm l')
  | Some AGetcol, [j] => l' ← Lib.getcol l j; mret (VSpm l')
  | Some ADiagonal, [] => mret (VArray (Lib.diagonal m))
  | Some AToarray, [] => mret (VDense (Lib.toarray m))
  | Some ASum, [] => lift (Lib.sum m VNone)
  | Some ASum, [axis] => lift (Lib.sum m axis)
  | Some AAstype, [VDtype t] => l' ← sp_astype l t; mret (VSpm l')
  | _, _ => raise TypeError
  end.

(** The unary [~x], by the type of [x]. *)
Definition py_invert (x : value) : M value :=
  match x with
  | VScalar s => mret (VScalar (scalar_invert s))
  | VArray a => mret (VArray (arr_invert a))
  | VDense d => mret (VDense (dense_invert d))
  | VSpm l =>
      m ← load l;
      if Lib.is_data_matrix (sp_format m) then dm_invert l
      else raise TypeError
  | VMtm w => mtm_invert w
  | _ => raise TypeError
  end.

(** [np.invert(x)]. *)
Definition np_invert (x : value) : M value := py_invert x.

(** The call [f(args)] of a function value. *)
Fixpoint py_call (f : value) (args : list value) : M value :=
  match f with
  | VMethod l name => sp_call l name args
  | VInverted delegate =>
      r ← py_call delegate args; py_invert r
  | VNocopy delegate =>
      r ← py_call delegate args;
      match r with
      | VSpm l => w ← mtm_init l false; mret (VMtm w)
      | _ => raise AttributeError
      end
  | VSetitem delegate =>
      match args with
      | [key; val] =>
          val' ← np_invert val;
          py_call delegate [key; val'];; mret VNone
      | _ => raise TypeError
      end
  | _ => raise TypeError
  end.

(** The three descriptor classes of [mtm.py]. *)
Inductive descriptor :=
| Delegate (attr : string)
| DelegateInverted (attr : string)
| DelegateMtmNocopy (attr : string).

(** [_delegate.__get__]. *)
Definition _delegate_get (attr : string) (obj : mtm) : M value :=
  sp_getattr (negative obj) attr.

(** [_delegate.__set__]. *)
Definition _delegate_set (attr : string) (obj : mtm) (v : value) : M unit :=
  sp_setattr (negative obj) attr v.

(** [_delegate_inverted.__get__]. *)
Definition _delegate_inverted_get (attr : string) (obj : mtm) : M value :=
  delegate ← sp_getattr (negative obj) attr; mret (VInverted delegate).

(** [_delegate_mtm_nocopy.__get__]. *)
Definition _delegate_mtm_nocopy_get (attr : string) (obj : mtm) : M value :=
  delegate ← sp_getattr (negative obj) attr; mret (VNocopy delegate).

Definition descriptor_get (d : descriptor) (obj : mtm) : M value :=
  match d with
  | Delegate attr => _delegate_get attr obj
  | DelegateInverted attr => _delegate_inverted_get attr obj
  | DelegateMtmNocopy attr => _delegate_mtm_nocopy_get attr obj
  end.

(** The descriptors in the body of [class mostly_true_matrix]. *)
Definition mtm_class : list (string * descriptor) :=
  [ ("shape", Delegate "shape");
    ("reshape", Delegate "shape");
    ("dtype", Delegate "dtype");
    ("__len__", Delegate "__len__");
    ("size", Delegate "size");
    ("format", Delegate "format");
    ("asformat", DelegateMtmNocopy "asformat");
    ("tobsr", DelegateMtmNocopy "tobsr");
    ("tocoo", DelegateMtmNocopy "tocoo");
    ("tocsc", DelegateMtmNocopy "tocsc");
    ("tocsr", DelegateMtmNocopy "tocsr");
    ("todia", DelegateMtmNocopy "todia");
    ("todok", DelegateMtmNocopy "todok");
    ("tolil", DelegateMtmNocopy "tolil");
    ("copy", DelegateMtmNocopy "copy");
    ("transpose", DelegateMtmNocopy "transpose");
    ("__getitem__", DelegateInverted "__getitem__");
    ("getrow", DelegateMtmNocopy "getrow");
    ("getcol", DelegateMtmNocopy "getcol");
    ("diagonal", DelegateInverted "diagonal");
    ("toarray", DelegateInverted "toarray") ].

(** The [__setitem__] property of [mostly_true_matrix]. *)
Definition mtm_setitem_property (self : mtm) : M value :=
  delegate ← sp_getattr (negative self) "__setitem__";
  mret (VSetitem delegate).

(** [getattr(w, name)] for a [mostly_true_matrix] [w]: the instance
    attribute [negative], a descriptor of the class, or one of the two
    properties [T] and [__setitem__]. *)
Definition mtm_getattr (self : mtm) (name : string) : M value :=
  if String.eqb name "negative" then mret (VSpm (negative self))
  else
    match lookup_name name mtm_class with
    | Some d => descriptor_get d self
    | None =>
        if String.eqb name "__setitem__" then mtm_setitem_property self
        else if String.eqb name "T" then
          f ← descriptor_get (DelegateMtmNocopy "transpose") self; py_call f []
        else raise AttributeError
    end.

(** [setattr(w, name, v)]: only [_delegate] has a [__set__]. *)
Definition mtm_setattr (self : mtm) (name : string) (v : value) : M unit :=
  match lookup_name name mtm_class with
  | Some (Delegate attr) => _delegate_set attr self v
  | _ => raise AttributeError
  end.

(** The method call [w.name(args)]. *)
Definition mtm_call (self : mtm) (name : string) (args : list value) : M value :=
  f ← mtm_getattr self name; py_call f args.

(** [w[key]] and [w[key] = val]: the special method is looked up on the
    class and bound to [w] through its descriptor. *)
Definition mtm_getitem (self : mtm) (key : value) : M value :=
  mtm_call self "__getitem__" [key].

Definition mtm_setitem (self : mtm) (key val : value) : M value :=
  mtm_call self "__setitem__" [key; val].

(** [n - res] for the result of a [sum]. *)
Definition minus_from (n : nat) (res : value) : M value :=
  match res with
  | VScalar s => mret (VScalar (SInt (Z.of_nat n - scalar_num s)))
  | VCounts l => mret (VCounts (map (fun x => Z.of_nat n - x) l))
  | _ => raise TypeError
  end.

Definition is_zero (axis : value) : bool :=
  match axis with
  | VScalar s => scalar_num s =? 0
  | _ => false
  end.

(** [mostly_true_matrix.sum(axis=None)]. *)
Definition mtm_sum (self : mtm) (axis : value) : M value :=
  res ← sp_call (negative self) "sum" [axis];
  shape ← mtm_getattr self "shape";
  match shape with
  | VTuple r c =>
      match axis with
      | VNone => minus_from (shape_product (r, c)) res
      | _ => if is_zero axis then minus_from r res else minus_from c res
      end
  | _ => raise TypeError
  end.

(** ** Well-formed matrices and dense readings *)

(** A matrix in canonical form: one entry of [data] per coordinate, every
    coordinate inside the shape, no coordinate stored twice. *)
Definition canonical (m : spmatrix) : bool :=
  (length (sp_coords m) =? sp_nnz m)%nat
  && forallb (Lib.in_range (sp_shape m)) (sp_coords m)
  && bool_decide (NoDup (sp_coords m)).

(** The element at [k] of the matrix a value stands for: a sparse matrix
    is read as it is, a [mostly_true_matrix] as the negation of its
    complement. *)
Definition read (h : gmap loc spmatrix) (v : value) (k : nat * nat) : option scalar :=
  match v with
  | VSpm l => m ← h !! l; Some (Lib.element m k)
  | VMtm w => m ← h !! negative w; Some (scalar_invert (Lib.element m k))
  | _ => None
  end.

(** The number of [True] entries of a dense boolean matrix. *)
Definition count_true (d : dense) : Z :=
  match d with
  | BoolMat rows => Lib.sum_list (b2z <$> concat rows)
  | IntMat _ _ => 0
  end.

(** All positions of a shape, row by row. *)
Definition positions (s : nat * nat) : list (nat * nat) :=
  flat_map (fun i => map (fun j => (i, j)) (seq 0 s.2)) (seq 0 s.1).

(** The greatest and the least entry of a buffer. *)
Definition greatest (a : ndarray) (x : scalar) : Prop :=
  x ∈ arr_items a ∧ ∀ y, y ∈ arr_items a → scalar_num y ≤ scalar_num x.
Definition least (a : ndarray) (x : scalar) : Prop :=
  x ∈ arr_items a ∧ ∀ y, y ∈ arr_items a → scalar_num x ≤ scalar_num y.

(** The calls that [mostly_true_matrix] forwards to its complement and
    rewraps: the format conversions, [copy] and [transpose] without
    arguments, and [asformat] with a format. *)
Definition conversions : list string :=
  ["tobsr"; "tocoo"; "tocsc"; "tocsr"; "todia"; "todok"; "tolil"; "copy"].

Definition forwarded_call (name : string) (args : list value) : bool :=
  match args with
  | [] => bool_decide (name ∈ conversions) || String.eqb name "transpose"
  | [VFormat _] => String.eqb name "asformat"
  | _ => false
  end.

(** ** Sample objects

    A store with an integer matrix in csr format, a boolean one in csr
    format and a boolean one in coo format, on which the statements below
    are exercised. *)
Definition sample_ints : spmatrix :=
  {| sp_format := CSR; sp_shape := (2%nat, 3%nat);
     sp_coords := [(0%nat, 0%nat); (1%nat, 2%nat)]; sp_data := IntArr W8 [3; -1] |}.

Definition sample_bools : spmatrix :=
  {| sp_format := CSR; sp_shape := (2%nat, 3%nat);
     sp_coords := [(0%nat, 1%nat); (1%nat, 2%nat)]; sp_data := BoolArr [true; false] |}.

Definition sample_coo : spmatrix :=
  {| sp_format := COO; sp_shape := (2%nat, 3%nat);
     sp_coords := [(0%nat, 1%nat)]; sp_data := BoolArr [true] |}.

Definition sample_store : gmap loc spmatrix :=
  <[0%nat := sample_ints]> (<[1%nat := sample_bools]> (<[2%nat := sample_coo]> ∅)).

(** ** More of [data.py]

    The elementwise methods that build a new matrix on the pattern of
    [self]: [__abs__], and the methods that the loop at the end of the class
    adds for the numpy ufuncs with [func(0) = 0]. *)

(** The entries of a buffer as numbers. *)
Definition arr_nums (a : ndarray) : list Z := scalar_num <$> arr_items a.

(** [abs(a)]: booleans stay, integers wrap in their width. *)
Definition arr_abs (a : ndarray) : ndarray :=
  match a with
  | BoolArr l => BoolArr l
  | IntArr w l => IntArr w ((fun z => wrap w (Z.abs z)) <$> l)
  end.

(** [np.sign(a)]: the dtype is kept, a boolean buffer being taken as
    [int8] first. *)
Definition np_sign (a : ndarray) : result ndarray :=
  match a with
  | BoolArr l => Ok (IntArr W8 (b2z <$> l))
  | IntArr w l => Ok (IntArr w (Z.sgn <$> l))
  end.

(** The dtype of [np.sign(a)] for the dtype of [a]. *)
Definition np_sign_dtype (t : dtype) : dtype :=
  match t with
  | DBool => DInt W8
  | DInt w => DInt w
  end.

(** [_data_matrix.__abs__]. *)
Definition dm_abs (self : loc) : M value :=
  m ← load self;
  l ← _with_data self (arr_abs (sp_data m)) false; mret (VSpm l).

(** [_create_method(op)]: the method [method(self)] made for the ufunc
    [op]. *)
Definition _create_method (op : ndarray → result ndarray) (self : loc) : M value :=
  m ← load self;
  result ← lift (op (sp_data m));
  x ← _with_data self result true;
  mret (VSpm x).

(** [x != 0] on a scalar, the truth value [astype(bool)] gives it. *)
Definition nonzero (s : scalar) : bool := negb (scalar_num s =? 0).

(** A scalar operand that numpy takes as a signed integer of at most 64
    bits, so that an in-place product is cast back to the dtype of the
    buffer. *)
Definition fits_int64 (s : scalar) : bool :=
  (- 2 ^ 63 <=? scalar_num s) && (scalar_num s <? 2 ^ 63).

(** The [True] entries in column [j], and in row [i], of a dense boolean
    matrix. *)
Definition column_trues (d : dense) (j : nat) : Z :=
  match d with
  | BoolMat rows => Lib.sum_list ((fun r => b2z (default false (r !! j))) <$> rows)
  | IntMat _ _ => 0
  end.

Definition row_trues (d : dense) (i : nat) : Z :=
  match d with
  | BoolMat rows => Lib.sum_list (b2z <$> default [] (rows !! i))
  | IntMat _ _ => 0
  end.

(** ** Printing

    [mostly_true_matrix.__str__] prints the complement and swaps the words
    [True] and [False] in the text by three calls of [str.replace]. *)

(** [s.replace(old, new)] for a non-empty [old]: the occurrences of [old]
    are taken from the left and do not overlap; [skip] counts the
    characters of a found occurrence that are still to be passed. *)
Fixpoint py_replace_from (old new : string) (skip : nat) (s : string) : string :=
  match s with
  | EmptyString => EmptyString
  | String c s' =>
      match skip with
      | S k => py_replace_from old new k s'
      | O =>
          if String.prefix old s
          then new ++ py_replace_from old new (String.length old - 1) s'
          else String c (py_replace_from old new 0 s')
      end
  end.

Definition py_replace (old new s : string) : string := py_replace_from old new 0 s.

(** [mostly_true_matrix.__str__], on the text [str(self.negative)]. *)
Definition mtm_str (printed : string) : string :=
  py_replace "eslaF" "False" (py_replace "False" "True" (py_replace "True" "eslaF" printed)).

(** [mostly_true_matrix.__repr__], on the text [repr(self.negative)]. *)
Definition mtm_repr (printed : string) : string :=
  "<Boolean inversion of " ++ printed ++ ">".

(** A text in which truth values are printed: before each value a
    separator, after the last one a tail. *)
Definition truth_word (b : bool) : string := if b then "True" else "False".

Fixpoint printout (word : bool → string) (items : list (string * bool))
  (tail : string) : string :=
  match items with
  | [] => tail
  | (sep, b) :: rest => sep ++ word b ++ printout word rest tail
  end.

(** A text without any letter of the two words. *)
Definition plain_char (c : Ascii.ascii) : bool :=
  negb (existsb (Ascii.eqb c) (String.list_ascii_of_string "TrueFalse")).

Fixpoint plain (s : string) : bool :=
  match s with
  | EmptyString => true
  | String c s' => plain_char c && plain s'
  end.

(** ** Running computations *)

Lemma run_bind {A B} (c : M A) (k : A → M B) h :
  (c ≫= k) h = match c h with
               | (Ok a, h') => k a h'
               | (Raise e, h') => (Raise e, h')
               end.
Proof. reflexivity. Qed.

Lemma run_bind_ok {A B} (c : M A) (k : A → M B) h a h' :
  c h = (Ok a, h') → (c ≫= k) h = k a h'.
Proof. intros E. rewrite run_bind, E. reflexivity. Qed.

Lemma run_bind_raise {A B} (c : M A) (k : A → M B) h e h' :
  c h = (Raise e, h') → (c ≫= k) h = (Raise e, h').
Proof. intros E. rewrite run_bind, E. reflexivity. Qed.

Lemma run_ret {A} (a : A) h : (mret a : M A) h = (Ok a, h).
Proof. reflexivity. Qed.

Lemma run_load h l m : h !! l = Some m → load l h = (Ok m, h).
Proof. intros E. unfold load. rewrite E. reflexivity. Qed.

Lemma fresh_unused (h : gmap loc spmatrix) : h !! fresh (dom h) = None.
Proof. apply not_elem_of_dom, is_fresh. Qed.

Lemma fresh_other (h : gmap loc spmatrix) l m : h !! l = Some m → fresh (dom h) ≠ l.
Proof. intros E F. rewrite <- F, fresh_unused in E. discriminate. Qed.

Lemma alloc_keeps (h : gmap loc spmatrix) l m x :
  h !! l = Some m → <[fresh (dom h) := x]> h !! l = Some m.
Proof. intros E. rewrite lookup_insert_ne; [done | by eapply fresh_other]. Qed.

(** Steps a computation on a store whose lookups are known. *)
Ltac step :=
  repeat first
    [ rewrite run_ret
    | erewrite run_load by eassumption
    | rewrite run_bind ].

(** ** [mostly_true_matrix.reshape] *)

Lemma getattr_shape h l m :
  h !! l = Some m → sp_getattr l "shape" h = (Ok (VTuple (sp_shape m).1 (sp_shape m).2), h).
Proof. intros E. unfold sp_getattr. step. reflexivity. Qed.

(** C9: the attribute [reshape] of a [mostly_true_matrix] evaluates to the
    shape tuple of its complement, the very value of the attribute
    [shape]; being a tuple it cannot be called, so it reshapes nothing. *)
Theorem C9_reshape_is_shape (w : mtm) (h : gmap loc spmatrix) (n : spmatrix)
    (args : list value) :
  h !! negative w = Some n →
  mtm_getattr w "reshape" h = (Ok (VTuple (sp_shape n).1 (sp_shape n).2), h)
  ∧ mtm_getattr w "reshape" h = mtm_getattr w "shape" h
  ∧ mtm_call w "reshape" args h = (Raise TypeError, h).
Proof.
  intros E.
  assert (G : mtm_getattr w "reshape" h
              = (Ok (VTuple (sp_shape n).1 (sp_shape n).2), h)).
  { unfold mtm_getattr. simpl. unfold _delegate_get. by apply getattr_shape. }
  split; [exact G |]. split.
  - rewrite G. unfold mtm_getattr. simpl. unfold _delegate_get.
    symmetry. by apply getattr_shape.
  - unfold mtm_call. erewrite run_bind_ok by exact G. reflexivity.
Qed.


Lemma C9_reshape_sample :
  mtm_getattr (Mtm 1%nat) "reshape" sample_store = (Ok (VTuple 2 3), sample_store)
  ∧ mtm_getattr (Mtm 1%nat) "reshape" sample_store
    = mtm_getattr (Mtm 1%nat) "shape" sample_store
  ∧ mtm_call (Mtm 1%nat) "reshape" [VTuple 3 2] sample_store
    = (Raise TypeError, sample_store).
Proof.
  apply (C9_reshape_is_shape (Mtm 1%nat) sample_store sample_bools [VTuple 3 2]).
  reflexivity.
Defined.

(** ** [_minmax_mixin.max] and [_minmax_mixin.min] *)

Lemma foldl_max_greatest (l : list scalar) (x : scalar) :
  foldl scalar_max x l ∈ x :: l
  ∧ ∀ y, y ∈ x :: l → scalar_num y ≤ scalar_num (foldl scalar_max x l).
Proof.
  revert x. induction l as [| a l IH]; intros x; simpl.
  - split; [left |]. intros y Hy. apply list_elem_of_singleton in Hy. by subst.
  - destruct (IH (scalar_max x a)) as [Hin Hle]. split.
    + apply elem_of_cons in Hin as [-> | Hin].
      * unfold scalar_max. destruct (_ <? _); [right; left | left].
      * right; by right.
    + intros y Hy.
      assert (scalar_num x ≤ scalar_num (scalar_max x a)
              ∧ scalar_num a ≤ scalar_num (scalar_max x a)) as [Hx Ha].
      { unfold scalar_max. destruct (Z.ltb_spec (scalar_num x) (scalar_num a)); lia. }
      pose proof (Hle (scalar_max x a) ltac:(left)) as Hm.
      apply elem_of_cons in Hy as [-> | Hy]; [lia |].
      apply elem_of_cons in Hy as [-> | Hy]; [lia |].
      apply Hle. by right.
Qed.

Lemma foldl_min_least (l : list scalar) (x : scalar) :
  foldl scalar_min x l ∈ x :: l
  ∧ ∀ y, y ∈ x :: l → scalar_num (foldl scalar_min x l) ≤ scalar_num y.
Proof.
  revert x. induction l as [| a l IH]; intros x; simpl.
  - split; [left |]. intros y Hy. apply list_elem_of_singleton in Hy. by subst.
  - destruct (IH (scalar_min x a)) as [Hin Hle]. split.
    + apply elem_of_cons in Hin as [-> | Hin].
      * unfold scalar_min. destruct (_ <? _); [right; left | left].
      * right; by right.
    + intros y Hy.
      assert (scalar_num (scalar_min x a) ≤ scalar_num x
              ∧ scalar_num (scalar_min x a) ≤ scalar_num a) as [Hx Ha].
      { unfold scalar_min. destruct (Z.ltb_spec (scalar_num a) (scalar_num x)); lia. }
      pose proof (Hle (scalar_min x a) ltac:(left)) as Hm.
      apply elem_of_cons in Hy as [-> | Hy]; [lia |].
      apply elem_of_cons in Hy as [-> | Hy]; [lia |].
      apply Hle. by right.
Qed.

Lemma arr_items_length (a : ndarray) : length (arr_items a) = arr_len a.
Proof. destruct a; simpl; by rewrite length_fmap. Qed.

Lemma np_max_greatest (a : ndarray) :
  arr_len a ≠ 0%nat → ∃ mx, np_max a = Ok mx ∧ greatest a mx.
Proof.
  intros Hn. unfold np_max, greatest. rewrite <- arr_items_length in Hn.
  destruct (arr_items a) as [| x l]; [done |].
  eexists; split; [reflexivity |]. apply foldl_max_greatest.
Qed.

Lemma np_min_least (a : ndarray) :
  arr_len a ≠ 0%nat → ∃ mn, np_min a = Ok mn ∧ least a mn.
Proof.
  intros Hn. unfold np_min, least. rewrite <- arr_items_length in Hn.
  destruct (arr_items a) as [| x l]; [done |].
  eexists; split; [reflexivity |]. apply foldl_min_least.
Qed.

Lemma dtype_zero_num (t : dtype) : scalar_num (dtype_type t 0) = 0.
Proof. by destruct t as [| []]. Qed.

Lemma py_max_zero (zero mx : scalar) :
  scalar_num zero = 0 → scalar_num (py_max zero mx) = Z.max 0 (scalar_num mx).
Proof.
  intros Hz. unfold py_max, relop_scalar, relop_num. rewrite Hz.
  destruct (Z.gtb_spec (scalar_num mx) 0); lia.
Qed.

Lemma py_min_zero (zero mn : scalar) :
  scalar_num zero = 0 → scalar_num (py_min zero mn) = Z.min 0 (scalar_num mn).
Proof.
  intros Hz. unfold py_min, relop_scalar, relop_num. rewrite Hz.
  destruct (Z.ltb_spec (scalar_num mn) 0); lia.
Qed.

(** C10: [max()] and [min()] of [_minmax_mixin] count the implicit zeros.
    With no stored entry the result is the zero of the dtype; with some but
    fewer than [product(shape)] stored entries it is [max(0, max(data))],
    respectively [min(0, min(data))]; with every position stored it is
    [max(data)], respectively [min(data)]. *)
Theorem C10_minmax_counts_implicit_zeros (h : gmap loc spmatrix) (l : loc)
    (m : spmatrix) :
  h !! l = Some m →
  let zero := dtype_type (sp_dtype m) 0 in
  let size := shape_product (sp_shape m) in
  scalar_num zero = 0
  ∧ (sp_nnz m = 0%nat →
     minmax_max l h = (Ok zero, h) ∧ minmax_min l h = (Ok zero, h))
  ∧ ((0 < sp_nnz m < size)%nat →
     ∃ mx mn, greatest (sp_data m) mx ∧ least (sp_data m) mn
       ∧ minmax_max l h = (Ok (py_max zero mx), h)
       ∧ scalar_num (py_max zero mx) = Z.max 0 (scalar_num mx)
       ∧ minmax_min l h = (Ok (py_min zero mn), h)
       ∧ scalar_num (py_min zero mn) = Z.min 0 (scalar_num mn))
  ∧ ((0 < sp_nnz m)%nat → sp_nnz m = size →
     ∃ mx mn, greatest (sp_data m) mx ∧ least (sp_data m) mn
       ∧ minmax_max l h = (Ok mx, h) ∧ minmax_min l h = (Ok mn, h)).
Proof.
  intros E zero size.
  assert (Hz : scalar_num zero = 0) by apply dtype_zero_num.
  split; [exact Hz |]. split; [| split].
  - intros H0. unfold minmax_max, minmax_min. step.
    rewrite H0. simpl. by step.
  - intros [Hpos Hlt].
    destruct (np_max_greatest (sp_data m)) as (mx & Emx & Gmx); [unfold sp_nnz in Hpos; lia |].
    destruct (np_min_least (sp_data m)) as (mn & Emn & Gmn); [unfold sp_nnz in Hpos; lia |].
    exists mx, mn. split; [done |]. split; [done |].
    assert (Hn0 : (sp_nnz m =? 0)%nat = false) by (apply Nat.eqb_neq; lia).
    assert (Hns : (sp_nnz m =? shape_product (sp_shape m))%nat = false)
      by (apply Nat.eqb_neq; unfold size in Hlt; lia).
    unfold minmax_max, minmax_min. step. rewrite Hn0, Hns. simpl.
    unfold lift. rewrite !run_bind, Emx, Emn. simpl.
    split; [done |]. split; [by apply py_max_zero |].
    split; [done |]. by apply py_min_zero.
  - intros Hpos Hfull.
    destruct (np_max_greatest (sp_data m)) as (mx & Emx & Gmx); [unfold sp_nnz in Hpos; lia |].
    destruct (np_min_least (sp_data m)) as (mn & Emn & Gmn); [unfold sp_nnz in Hpos; lia |].
    exists mx, mn. split; [done |]. split; [done |].
    assert (Hn0 : (sp_nnz m =? 0)%nat = false) by (apply Nat.eqb_neq; lia).
    assert (Hns : (sp_nnz m =? shape_product (sp_shape m))%nat = true)
      by (apply Nat.eqb_eq; exact Hfull).
    unfold minmax_max, minmax_min. step. rewrite Hn0, Hns. simpl.
    unfold lift. rewrite !run_bind, Emx, Emn. by simpl.
Qed.

Lemma C10_minmax_sample :
  ∃ mx mn, greatest (sp_data sample_ints) mx ∧ least (sp_data sample_ints) mn
    ∧ minmax_max 0%nat sample_store = (Ok (py_max (SInt 0) mx), sample_store)
    ∧ scalar_num (py_max (SInt 0) mx) = Z.max 0 (scalar_num mx)
    ∧ minmax_min 0%nat sample_store = (Ok (py_min (SInt 0) mn), sample_store)
    ∧ scalar_num (py_min (SInt 0) mn) = Z.min 0 (scalar_num mn).
Proof.
  apply (C10_minmax_counts_implicit_zeros sample_store 0%nat sample_ints);
    [reflexivity |].
  vm_compute. split; lia.
Defined.

(** ** Objects made by the two modules *)

Lemma with_data_of_same (m : spmatrix) : with_data_of m (sp_data m) = m.
Proof. by destruct m. Qed.

Lemma run_alloc (x : spmatrix) (h : gmap loc spmatrix) :
  alloc x h = (Ok (fresh (dom h)), <[fresh (dom h) := x]> h).
Proof. reflexivity. Qed.

Lemma run_with_data h l m d c :
  h !! l = Some m →
  _with_data l d c h = (Ok (fresh (dom h)), <[fresh (dom h) := with_data_of m d]> h).
Proof. intros E. unfold _with_data. by step. Qed.

Lemma run_get_dtype h l m : h !! l = Some m → _get_dtype l h = (Ok (sp_dtype m), h).
Proof. intros E. unfold _get_dtype. by step. Qed.

Lemma run_sp_copy h l m :
  h !! l = Some m → sp_copy l h = (Ok (fresh (dom h)), <[fresh (dom h) := m]> h).
Proof.
  intros E. unfold sp_copy, dm_copy. step.
  destruct (Lib.is_data_matrix _); [| done].
  step. erewrite run_with_data by eassumption. by rewrite with_data_of_same.
Qed.

Lemma run_sp_astype h l m t :
  h !! l = Some m →
  sp_astype l t h
  = (Ok (fresh (dom h)), <[fresh (dom h) := with_data_of m (arr_astype (sp_data m) t)]> h).
Proof.
  intros E. unfold sp_astype, dm_astype. step.
  destruct (Lib.is_data_matrix _); [| done].
  step. by erewrite run_with_data by eassumption.
Qed.

Lemma run_mtm_init_copy h l m :
  h !! l = Some m → sp_dtype m = DBool →
  mtm_init l true h = (Ok (Mtm (fresh (dom h))), <[fresh (dom h) := m]> h).
Proof.
  intros E Hb. unfold mtm_init, sp_get_dtype.
  erewrite run_bind_ok by (by apply run_get_dtype).
  rewrite Hb. destruct (decide (DBool ≠ DBool)); [done |].
  erewrite run_bind_ok by (by apply run_sp_copy). done.
Qed.

Lemma run_mtm_init_nocopy h l m :
  h !! l = Some m → sp_dtype m = DBool → mtm_init l false h = (Ok (Mtm l), h).
Proof.
  intros E Hb. unfold mtm_init, sp_get_dtype.
  erewrite run_bind_ok by (by apply run_get_dtype).
  rewrite Hb. by destruct (decide (DBool ≠ DBool)).
Qed.

Lemma run_mtm_init_cast h l m copy :
  h !! l = Some m → sp_dtype m ≠ DBool →
  mtm_init l copy h
  = (Ok (Mtm (fresh (dom h))),
     <[fresh (dom h) := with_data_of m (arr_astype (sp_data m) DBool)]> h).
Proof.
  intros E Hb. unfold mtm_init, sp_get_dtype.
  erewrite run_bind_ok by (by apply run_get_dtype).
  destruct (decide (sp_dtype m ≠ DBool)); [| done].
  erewrite run_bind_ok by (by apply run_sp_astype). done.
Qed.

(** ** Comparison with a scalar *)

Lemma get_at_fmap {A B} (f : A → B) k cs (xs : list A) :
  Lib.get_at k cs (f <$> xs) = f <$> Lib.get_at k cs xs.
Proof.
  revert xs. induction cs as [| c cs IH]; intros [| x xs]; simpl; try done.
  destruct (decide (c = k)); [done | apply IH].
Qed.

(** The element at [k] is the stored entry, or the zero of the dtype. *)
Lemma element_stored (m : spmatrix) (k : nat * nat) :
  Lib.element m k
  = default (dtype_type (sp_dtype m) 0)
      (Lib.get_at k (sp_coords m) (arr_items (sp_data m))).
Proof.
  unfold Lib.element, sp_dtype, Lib.bool_at, Lib.int_at.
  destruct (sp_data m) as [l | w l]; simpl; rewrite get_at_fmap.
  - by destruct (Lib.get_at k (sp_coords m) l).
  - destruct (Lib.get_at k (sp_coords m) l); [done | by destruct w].
Qed.

Lemma relop_zero (op : relop) (t : dtype) (s : scalar) :
  relop_scalar op (dtype_type t 0) s = relop_scalar op (SInt 0) s.
Proof. unfold relop_scalar. by rewrite dtype_zero_num. Qed.

(** Reading the buffer [op(data, s)] on the pattern of [m]. *)
Lemma element_compared (op : relop) (s : scalar) (m : spmatrix) (k : nat * nat) :
  Lib.element (with_data_of m (relop_arr op (sp_data m) s)) k
  = SBool (match Lib.get_at k (sp_coords m) (arr_items (sp_data m)) with
           | Some x => relop_scalar op x s
           | None => false
           end).
Proof.
  unfold Lib.element, relop_arr, Lib.bool_at. simpl. rewrite get_at_fmap.
  by destruct (Lib.get_at _ _ _).
Qed.

Lemma element_compared_inverted (op : relop) (s : scalar) (m : spmatrix) (k : nat * nat) :
  Lib.element (with_data_of m (arr_invert (relop_arr op (sp_data m) s))) k
  = SBool (match Lib.get_at k (sp_coords m) (arr_items (sp_data m)) with
           | Some x => negb (relop_scalar op x s)
           | None => false
           end).
Proof.
  unfold Lib.element, relop_arr, Lib.bool_at. simpl. rewrite !get_at_fmap.
  by destruct (Lib.get_at _ _ _).
Qed.

Lemma read_spm h l m k :
  h !! l = Some m → read h (VSpm l) k = Some (Lib.element m k).
Proof. intros E. unfold read. by rewrite E. Qed.

Lemma read_mtm h w n k :
  h !! negative w = Some n →
  read h (VMtm w) k = Some (scalar_invert (Lib.element n k)).
Proof. intros E. unfold read. by rewrite E. Qed.

Lemma py_compare_relative (op : relop) (l : loc) (x : value) :
  py_compare op l x = _relative l x op.
Proof. by destruct op. Qed.



(** ** Boolean negation *)

Lemma run_dm_invert_bool h l m :
  h !! l = Some m → sp_dtype m = DBool →
  dm_invert l h = (Ok (VMtm (Mtm (fresh (dom h)))), <[fresh (dom h) := m]> h).
Proof.
  intros E Hb. unfold dm_invert.
  erewrite run_bind_ok by (by apply run_get_dtype).
  rewrite Hb. destruct (decide (DBool = DBool)); [| done].
  erewrite run_bind_ok by (by apply run_mtm_init_copy). done.
Qed.

Lemma run_dm_invert_other h l m :
  h !! l = Some m → sp_dtype m ≠ DBool →
  dm_invert l h
  = (Ok (VSpm (fresh (dom h))),
     <[fresh (dom h) := with_data_of m (arr_invert (sp_data m))]> h).
Proof.
  intros E Hb. unfold dm_invert.
  erewrite run_bind_ok by (by apply run_get_dtype).
  destruct (decide (sp_dtype m = DBool)); [done |].
  step. by erewrite run_with_data by eassumption.
Qed.

Lemma run_py_invert_spm h l m :
  h !! l = Some m → Lib.is_data_matrix (sp_format m) = true →
  py_invert (VSpm l) h = dm_invert l h.
Proof. intros E Hd. unfold py_invert. step. by rewrite Hd. Qed.

(** C7: on a boolean [_data_matrix] [m], [~m] is a [mostly_true_matrix]
    around a copy of [m] (a new object with the contents of [m]), and
    [~(~m)] is again a new object with the contents of [m], the operand
    and the wrapper's complement staying as they were; on a matrix of
    another dtype, [~m] is [m._with_data(~m.data)]. *)
Theorem C7_invert_twice (h : gmap loc spmatrix) (l : loc) (m : spmatrix) :
  h !! l = Some m →
  Lib.is_data_matrix (sp_format m) = true →
  (sp_dtype m = DBool →
   ∃ w h1 l2 h2,
     py_invert (VSpm l) h = (Ok (VMtm w), h1)
     ∧ h !! negative w = None
     ∧ h1 !! negative w = Some m
     ∧ h1 !! l = Some m
     ∧ py_invert (VMtm w) h1 = (Ok (VSpm l2), h2)
     ∧ h1 !! l2 = None
     ∧ h2 !! l2 = Some m
     ∧ h2 !! negative w = Some m
     ∧ h2 !! l = Some m)
  ∧ (sp_dtype m ≠ DBool →
     ∃ l',
       py_invert (VSpm l) h
       = (Ok (VSpm l'), <[l' := with_data_of m (arr_invert (sp_data m))]> h)
       ∧ h !! l' = None
       ∧ py_invert (VSpm l) h
         = (l'' ← _with_data l (arr_invert (sp_data m)) false; mret (VSpm l'')) h).
Proof.
  intros E Hd. split; intros Hb.
  - set (l1 := fresh (dom h)). set (h1 := <[l1 := m]> h).
    assert (E1 : h1 !! l1 = Some m) by apply lookup_insert_eq.
    exists (Mtm l1), h1, (fresh (dom h1)), (<[fresh (dom h1) := m]> h1).
    split; [by erewrite run_py_invert_spm, run_dm_invert_bool |].
    split; [apply fresh_unused |]. split; [exact E1 |].
    split; [by apply alloc_keeps |].
    split.
    { unfold py_invert, mtm_invert.
      by erewrite run_bind_ok by (by apply (run_sp_copy h1 l1 m)). }
    split; [apply fresh_unused |]. split; [apply lookup_insert_eq |].
    split; [by apply alloc_keeps |]. by do 2 apply alloc_keeps.
  - exists (fresh (dom h)).
    split; [by erewrite run_py_invert_spm, run_dm_invert_other |].
    split; [apply fresh_unused |].
    erewrite run_py_invert_spm, run_dm_invert_other by done.
    by erewrite run_bind_ok by (by apply run_with_data).
Qed.

Lemma C7_invert_sample :
  (∃ w h1 l2 h2,
     py_invert (VSpm 1%nat) sample_store = (Ok (VMtm w), h1)
     ∧ sample_store !! negative w = None
     ∧ h1 !! negative w = Some sample_bools
     ∧ h1 !! 1%nat = Some sample_bools
     ∧ py_invert (VMtm w) h1 = (Ok (VSpm l2), h2)
     ∧ h1 !! l2 = None
     ∧ h2 !! l2 = Some sample_bools
     ∧ h2 !! negative w = Some sample_bools
     ∧ h2 !! 1%nat = Some sample_bools)
  ∧ (∃ l',
       py_invert (VSpm 0%nat) sample_store
       = (Ok (VSpm l'),
          <[l' := with_data_of sample_ints (arr_invert (sp_data sample_ints))]> sample_store)
       ∧ sample_store !! l' = None
       ∧ py_invert (VSpm 0%nat) sample_store
         = (l'' ← _with_data 0%nat (arr_invert (sp_data sample_ints)) false;
            mret (VSpm l'')) sample_store).
Proof.
  split.
  - apply (C7_invert_twice sample_store 1%nat sample_bools); reflexivity.
  - apply (C7_invert_twice sample_store 0%nat sample_ints);
      [reflexivity | reflexivity | discriminate].
Defined.

(** ** Reading and writing through the wrapper *)

Lemma getitem_valid (n : spmatrix) (key v : value) :
  Lib.getitem n key = Ok v →
  Lib.item_access_of (sp_format n) = Lib.ItemAccess
  ∧ ∃ i j, key = VTuple i j ∧ Lib.in_range (sp_shape n) (i, j) = true
           ∧ v = VScalar (Lib.element n (i, j)).
Proof.
  unfold Lib.getitem. destruct (Lib.item_access_of _); try done.
  destruct key as [| | i j | | | | | | | | | | |]; try done.
  destruct (Lib.in_range _ _) eqn:R; [| done].
  intros [= <-]. split; [done |]. by exists i, j.
Qed.

Lemma bool_data (n : spmatrix) :
  sp_dtype n = DBool → ∃ l, sp_data n = BoolArr l.
Proof. unfold sp_dtype. destruct (sp_data n); [by eexists | done]. Qed.

Lemma run_getattr_item h l m name :
  h !! l = Some m →
  Lib.item_access_of (sp_format m) = Lib.ItemAccess →
  name = "__getitem__" ∨ name = "__setitem__" →
  sp_getattr l name h = (Ok (VMethod l name), h).
Proof.
  intros E Ha [-> | ->]; unfold sp_getattr; step; simpl; by rewrite Ha.
Qed.

Lemma run_call_getitem h l m key :
  h !! l = Some m →
  sp_call l "__getitem__" [key] h = (Lib.getitem m key, h).
Proof. intros E. unfold sp_call. by step. Qed.

Lemma run_mtm_getitem w h n key v :
  h !! negative w = Some n → Lib.getitem n key = Ok v →
  mtm_getitem w key h = py_invert v h.
Proof.
  intros E Hv. destruct (getitem_valid _ _ _ Hv) as [Ha _].
  unfold mtm_getitem, mtm_call.
  change (mtm_getattr w "__getitem__") with (_delegate_inverted_get "__getitem__" w).
  unfold _delegate_inverted_get.
  erewrite (run_bind_ok (_ ≫= _)); [| erewrite run_bind_ok; [reflexivity |]].
  2: { apply (run_getattr_item h (negative w) n); auto. }
  cbn [py_call].
  erewrite run_bind_ok; [reflexivity |].
  erewrite run_call_getitem by eassumption. by rewrite Hv.
Qed.

Lemma run_mtm_call_inverted w h n name r :
  h !! negative w = Some n →
  name = "diagonal" ∨ name = "toarray" →
  sp_call (negative w) name [] h = (Ok r, h) →
  mtm_call w name [] h = py_invert r h.
Proof.
  intros E Hn Hr. unfold mtm_call.
  assert (G : mtm_getattr w name h = (Ok (VInverted (VMethod (negative w) name)), h)).
  { destruct Hn as [-> | ->].
    - change (mtm_getattr w "diagonal") with (_delegate_inverted_get "diagonal" w).
      unfold _delegate_inverted_get, sp_getattr. by step.
    - change (mtm_getattr w "toarray") with (_delegate_inverted_get "toarray" w).
      unfold _delegate_inverted_get, sp_getattr. by step. }
  erewrite run_bind_ok by exact G. cbn [py_call].
  by erewrite run_bind_ok by exact Hr.
Qed.



Lemma get_at_set_at {A} (k : nat * nat) (x : A) cs xs :
  Lib.get_at k (Lib.set_at k x cs xs).1 (Lib.set_at k x cs xs).2 = Some x.
Proof.
  revert xs. induction cs as [| c cs IH]; intros [| y xs]; simpl;
    try (by rewrite decide_True).
  destruct (decide (c = k)) as [-> | Hne]; simpl.
  - by rewrite decide_True.
  - rewrite decide_False by done. apply IH.
Qed.

Lemma get_at_set_at_other {A} (k k' : nat * nat) (x : A) cs xs :
  k' ≠ k →
  Lib.get_at k' (Lib.set_at k x cs xs).1 (Lib.set_at k x cs xs).2
  = Lib.get_at k' cs xs.
Proof.
  intros Hk. revert xs. induction cs as [| c cs IH]; intros [| y xs]; simpl;
    try (by rewrite decide_False).
  destruct (decide (c = k)) as [-> | Hne]; simpl.
  - by rewrite !decide_False by done.
  - destruct (decide (c = k')); [done | apply IH].
Qed.

Lemma with_entry_bool (n : spmatrix) (k : nat * nat) (b : bool) :
  sp_dtype n = DBool →
  sp_dtype (Lib.with_entry n k (SBool b)) = DBool
  ∧ sp_format (Lib.with_entry n k (SBool b)) = sp_format n
  ∧ sp_shape (Lib.with_entry n k (SBool b)) = sp_shape n
  ∧ Lib.element (Lib.with_entry n k (SBool b)) k = SBool b
  ∧ ∀ k', k' ≠ k →
      Lib.element (Lib.with_entry n k (SBool b)) k' = Lib.element n k'.
Proof.
  intros Hb. destruct (bool_data n Hb) as [l Hl].
  unfold Lib.with_entry, Lib.element, sp_dtype, Lib.bool_at. rewrite Hl. simpl.
  repeat split.
  - rewrite get_at_set_at. by destruct b.
  - intros k' Hk. by rewrite get_at_set_at_other.
Qed.

Lemma run_mtm_setitem w h n i j x x' :
  h !! negative w = Some n →
  Lib.item_access_of (sp_format n) = Lib.ItemAccess →
  Lib.in_range (sp_shape n) (i, j) = true →
  py_invert (VScalar x) h = (Ok (VScalar x'), h) →
  mtm_setitem w (VTuple i j) (VScalar x) h
  = (Ok VNone, <[negative w := Lib.with_entry n (i, j) x']> h).
Proof.
  intros E Ha Hr Hx. unfold mtm_setitem, mtm_call.
  change (mtm_getattr w "__setitem__") with (mtm_setitem_property w).
  unfold mtm_setitem_property.
  erewrite (run_bind_ok (_ ≫= _)); [| erewrite run_bind_ok; [reflexivity |]].
  2: { apply (run_getattr_item h (negative w) n); auto. }
  cbn [py_call]. unfold np_invert.
  erewrite run_bind_ok by exact Hx.
  erewrite run_bind_ok; [reflexivity |].
  unfold sp_call. step. simpl. unfold Lib.setitem. step.
  rewrite Ha, Hr. by step.
Qed.

(** C4: on a [mostly_true_matrix] [w] (its complement boolean) and a key
    [(i, j)] that the complement accepts, [w[i, j] = v] for a boolean [v]
    stores [np.invert(v)] in the complement at [(i, j)] and changes no
    other element, and [w[i, j]] then returns [v]. *)
Theorem C4_set_then_get (w : mtm) (h : gmap loc spmatrix) (n : spmatrix)
    (i j : nat) (x : value) (v : bool) :
  h !! negative w = Some n →
  sp_dtype n = DBool →
  Lib.getitem n (VTuple i j) = Ok x →
  let n' := Lib.with_entry n (i, j) (SBool (negb v)) in
  let h' := <[negative w := n']> h in
  np_invert (VScalar (SBool v)) h = (Ok (VScalar (SBool (negb v))), h)
  ∧ mtm_setitem w (VTuple i j) (VScalar (SBool v)) h = (Ok VNone, h')
  ∧ Lib.element n' (i, j) = SBool (negb v)
  ∧ (∀ k, k ≠ (i, j) → Lib.element n' k = Lib.element n k)
  ∧ mtm_getitem w (VTuple i j) h' = (Ok (VScalar (SBool v)), h').
Proof.
  intros E Hb Hx n' h'.
  destruct (getitem_valid _ _ _ Hx) as (Ha & i' & j' & [= <- <-] & Hr & _).
  destruct (with_entry_bool n (i, j) (negb v) Hb) as (Hb' & Hf & Hs & He & Ho).
  split; [done |]. split; [by apply run_mtm_setitem |].
  split; [exact He |]. split; [exact Ho |].
  assert (E' : h' !! negative w = Some n') by apply lookup_insert_eq.
  erewrite (run_mtm_getitem w h' n' (VTuple i j) (VScalar (SBool (negb v)))).
  - simpl. by rewrite negb_involutive.
  - exact E'.
  - unfold Lib.getitem. subst n'. rewrite Hf, Ha, Hs, Hr. by rewrite He.
Qed.

Lemma C4_set_then_get_sample :
  let n' := Lib.with_entry sample_bools (0%nat, 0%nat) (SBool (negb true)) in
  let h' := <[1%nat := n']> sample_store in
  np_invert (VScalar (SBool true)) sample_store
  = (Ok (VScalar (SBool (negb true))), sample_store)
  ∧ mtm_setitem (Mtm 1%nat) (VTuple 0 0) (VScalar (SBool true)) sample_store
    = (Ok VNone, h')
  ∧ Lib.element n' (0%nat, 0%nat) = SBool (negb true)
  ∧ (∀ k, k ≠ (0%nat, 0%nat) → Lib.element n' k = Lib.element sample_bools k)
  ∧ mtm_getitem (Mtm 1%nat) (VTuple 0 0) h' = (Ok (VScalar (SBool true)), h').
Proof.
  apply (C4_set_then_get (Mtm 1%nat) sample_store sample_bools 0 0
           (VScalar (SBool false)) true); reflexivity.
Defined.

(** ** Conversions through the wrapper *)

Lemma element_same_entries (a b : spmatrix) (k : nat * nat) :
  sp_coords a = sp_coords b → sp_data a = sp_data b →
  Lib.element a k = Lib.element b k.
Proof. intros Hc Hd. unfold Lib.element. by rewrite Hc, Hd. Qed.

Lemma get_at_swap {A} (k : nat * nat) cs (xs : list A) :
  Lib.get_at (Lib.swap k) (Lib.swap <$> cs) xs = Lib.get_at k cs xs.
Proof.
  revert xs. induction cs as [| c cs IH]; intros [| x xs]; simpl; try done.
  destruct (decide (c = k)) as [-> | Hne].
  - by rewrite decide_True.
  - rewrite decide_False; [apply IH |].
    destruct c, k. unfold Lib.swap. simpl. congruence.
Qed.

Lemma element_swapped (a b : spmatrix) (k : nat * nat) :
  sp_coords b = Lib.swap <$> sp_coords a → sp_data b = sp_data a →
  Lib.element b (Lib.swap k) = Lib.element a k.
Proof.
  intros Hc Hd. unfold Lib.element, Lib.bool_at, Lib.int_at. rewrite Hc, Hd.
  destruct (sp_data a); by rewrite get_at_swap.
Qed.

(** What a forwarded conversion of the library returns: the object it
    yields holds the entries, the dtype and the shape of the operand. *)
Lemma run_asformat h l n f :
  h !! l = Some n →
  ∃ l' h' n',
    Lib.asformat l f h = (Ok l', h')
    ∧ h' !! l' = Some n'
    ∧ sp_coords n' = sp_coords n ∧ sp_data n' = sp_data n
    ∧ sp_shape n' = sp_shape n.
Proof.
  intros E. unfold Lib.asformat. step.
  destruct (decide (sp_format n = f)).
  - by exists l, h, n.
  - eexists _, _, _. split; [reflexivity |].
    split; [apply lookup_insert_eq | done].
Qed.

Lemma run_mtm_call_nocopy w h n name args l' h' n' :
  h !! negative w = Some n →
  mtm_getattr w name h = (Ok (VNocopy (VMethod (negative w) name)), h) →
  sp_call (negative w) name args h = (Ok (VSpm l'), h') →
  h' !! l' = Some n' → sp_dtype n' = DBool →
  mtm_call w name args h = (Ok (VMtm (Mtm l')), h').
Proof.
  intros E G Hc E' Hb. unfold mtm_call.
  erewrite run_bind_ok by exact G. cbn [py_call].
  erewrite run_bind_ok by exact Hc. cbv beta iota.
  by erewrite run_bind_ok by (by apply (run_mtm_init_nocopy h' l' n')).
Qed.

Lemma run_nocopy_getattr w h n name :
  h !! negative w = Some n →
  lookup_name name mtm_class = Some (DelegateMtmNocopy name) →
  (∃ a, lookup_name name sp_class = Some a
        ∧ match a with
          | AShape | ADtype | ASize | AFormat | AGetitem | ASetitem => False
          | _ => True
          end) →
  mtm_getattr w name h = (Ok (VNocopy (VMethod (negative w) name)), h).
Proof.
  intros E Hm (a & Ha & Hn). unfold mtm_getattr.
  destruct (String.eqb_spec name "negative") as [-> | _]; [done |].
  rewrite Hm. unfold descriptor_get, _delegate_mtm_nocopy_get, sp_getattr.
  step. rewrite Ha. by destruct a.
Qed.

(** C8: on a [mostly_true_matrix] [w] (its complement boolean), each of
    [asformat], [tobsr], [tocoo], [tocsc], [tocsr], [todia], [todok],
    [tolil], [copy] and [transpose] forwards the call to [w.negative] and
    wraps the object it returns, as it is, in a new [mostly_true_matrix]:
    no further object is made.  The complement stays boolean; after a
    conversion or a copy the wrapper reads as [w] does at every position,
    after [transpose] as [w] does at the mirrored position. *)
Theorem C8_conversions_rewrap (w : mtm) (h : gmap loc spmatrix) (n : spmatrix)
    (name : string) (args : list value) :
  h !! negative w = Some n →
  sp_dtype n = DBool →
  forwarded_call name args = true →
  ∃ l' h' n',
    sp_call (negative w) name args h = (Ok (VSpm l'), h')
    ∧ mtm_call w name args h = (Ok (VMtm (Mtm l')), h')
    ∧ h' !! l' = Some n'
    ∧ sp_dtype n' = DBool
    ∧ if String.eqb name "transpose"
      then sp_shape n' = Lib.swap (sp_shape n)
           ∧ ∀ k, read h' (VMtm (Mtm l')) (Lib.swap k) = read h (VMtm w) k
      else sp_shape n' = sp_shape n
           ∧ ∀ k, read h' (VMtm (Mtm l')) k = read h (VMtm w) k.
Proof.
  intros E Hb Hf.
  assert (Conv : ∀ f, (name = "asformat" ∧ args = [VFormat f])
                      ∨ (lookup_name name sp_class = Some (ATo f) ∧ args = []
                         ∧ lookup_name name mtm_class = Some (DelegateMtmNocopy name)
                         ∧ String.eqb name "transpose" = false) →
          ∃ l' h' n',
            sp_call (negative w) name args h = (Ok (VSpm l'), h')
            ∧ mtm_call w name args h = (Ok (VMtm (Mtm l')), h')
            ∧ h' !! l' = Some n' ∧ sp_dtype n' = DBool
            ∧ if String.eqb name "transpose"
              then sp_shape n' = Lib.swap (sp_shape n)
                   ∧ ∀ k, read h' (VMtm (Mtm l')) (Lib.swap k) = read h (VMtm w) k
              else sp_shape n' = sp_shape n
                   ∧ ∀ k, read h' (VMtm (Mtm l')) k = read h (VMtm w) k).
  { intros f Hcase.
    destruct (run_asformat h (negative w) n f E) as (l' & h' & n' & Hrun & E' & Hc & Hd & Hs).
    assert (Hb' : sp_dtype n' = DBool) by (unfold sp_dtype; by rewrite Hd).
    assert (Hcall : sp_call (negative w) name args h = (Ok (VSpm l'), h')).
    { unfold sp_call. step.
      destruct Hcase as [[-> ->] | (-> & -> & _)]; simpl;
        by erewrite run_bind_ok by exact Hrun. }
    assert (Hno : String.eqb name "transpose" = false).
    { destruct Hcase as [[-> _] | (_ & _ & _ & Ht)]; done. }
    exists l', h', n'. split; [exact Hcall |]. split.
    - eapply run_mtm_call_nocopy; eauto.
      eapply run_nocopy_getattr; eauto.
      + destruct Hcase as [[-> _] | (_ & _ & Hm & _)]; done.
      + destruct Hcase as [[-> _] | (Ha & _)].
        * eexists. split; [reflexivity | exact I].
        * eexists. split; [exact Ha | exact I].
    - split; [exact E' |]. split; [exact Hb' |]. rewrite Hno.
      split; [exact Hs |]. intros k.
      erewrite !read_mtm by (simpl; eassumption).
      f_equal. f_equal. by apply element_same_entries. }
  unfold forwarded_call in Hf.
  destruct args as [| a [| ? ?]]; [| destruct a; try done | by destruct a].
  - apply orb_true_iff in Hf as [Hf | Hf].
    + apply bool_decide_eq_true in Hf. unfold conversions in Hf.
      repeat (apply elem_of_cons in Hf as [-> | Hf]);
        try (eapply Conv; right; by repeat split).
      * (* copy *)
        set (l' := fresh (dom h)).
        exists l', (<[l' := n]> h), n.
        assert (Hcall : sp_call (negative w) "copy" [] h
                        = (Ok (VSpm l'), <[l' := n]> h)).
        { unfold sp_call. step. simpl.
          by erewrite run_bind_ok by (by apply run_sp_copy). }
        split; [exact Hcall |]. split.
        { eapply run_mtm_call_nocopy; eauto; [| apply lookup_insert_eq].
          eapply run_nocopy_getattr; eauto.
          eexists. split; [reflexivity | exact I]. }
        split; [apply lookup_insert_eq |]. split; [done |].
        change (String.eqb "copy" "transpose") with false. cbv beta iota.
        split; [done |]. intros k.
        by erewrite !read_mtm by (first [apply lookup_insert_eq | eassumption]).
      * by apply elem_of_nil in Hf.
    + apply String.eqb_eq in Hf as ->.
      set (l' := fresh (dom h)).
      set (n' := {| sp_format := Lib.transposed_format (sp_format n);
                    sp_shape := Lib.swap (sp_shape n);
                    sp_coords := Lib.swap <$> sp_coords n; sp_data := sp_data n |}).
      exists l', (<[l' := n']> h), n'.
      assert (Hcall : sp_call (negative w) "transpose" [] h
                      = (Ok (VSpm l'), <[l' := n']> h)).
      { unfold sp_call. step. simpl. unfold Lib.transpose. by step. }
      split; [exact Hcall |]. split.
      { apply (run_mtm_call_nocopy w h n "transpose" [] l' (<[l' := n']> h) n');
          [done | | done | apply lookup_insert_eq | done].
        eapply run_nocopy_getattr; eauto.
        eexists. split; [reflexivity | exact I]. }
      split; [apply lookup_insert_eq |]. split; [done |].
      change (String.eqb "transpose" "transpose") with true. cbv beta iota.
      split; [done |]. intros k.
      erewrite !read_mtm by (first [apply lookup_insert_eq | eassumption]).
      f_equal. f_equal. by apply element_swapped.
  - apply String.eqb_eq in Hf as ->. eapply Conv. left. done.
Qed.

Lemma C8_conversions_sample :
  ∃ l' h' n',
    sp_call 1%nat "tocsc" [] sample_store = (Ok (VSpm l'), h')
    ∧ mtm_call (Mtm 1%nat) "tocsc" [] sample_store = (Ok (VMtm (Mtm l')), h')
    ∧ h' !! l' = Some n'
    ∧ sp_dtype n' = DBool
    ∧ sp_shape n' = sp_shape sample_bools
    ∧ ∀ k, read h' (VMtm (Mtm l')) k = read sample_store (VMtm (Mtm 1%nat)) k.
Proof.
  apply (C8_conversions_rewrap (Mtm 1%nat) sample_store sample_bools "tocsc" []);
    reflexivity.
Defined.

(** ** Counting through the wrapper *)

Lemma concat_grid {A} (f : nat * nat → A) (s : nat * nat) :
  concat (Lib.grid f s) = f <$> positions s.
Proof.
  unfold Lib.grid, positions. induction (seq 0 s.1) as [| i ix IH]; simpl; [done |].
  rewrite fmap_app, IH. f_equal. by rewrite <- list_fmap_compose.
Qed.

Lemma positions_length (s : nat * nat) :
  length (positions s) = shape_product s.
Proof.
  unfold positions, shape_product.
  assert (G : ∀ ix : list nat, length (flat_map (λ i : nat, map (λ j : nat, (i, j)) (seq 0 s.2)) ix)
                    = (length ix * s.2)%nat).
  { induction ix as [| i ix IH]; simpl; [done |].
    by rewrite length_app, length_map, length_seq, IH. }
  by rewrite G, length_seq.
Qed.

Lemma positions_spec (s k : nat * nat) :
  k ∈ positions s ↔ Lib.in_range s k = true.
Proof.
  unfold positions, Lib.in_range. rewrite list_elem_of_In, in_flat_map.
  rewrite andb_true_iff, !Nat.ltb_lt. split.
  - intros (i & Hi & Hk). apply in_map_iff in Hk as (j & <- & Hj).
    apply in_seq in Hi, Hj. simpl. lia.
  - intros [H1 H2]. exists k.1. split; [apply in_seq; lia |].
    apply in_map_iff. exists k.2. split; [by destruct k | apply in_seq; lia].
Qed.

Lemma positions_nodup (s : nat * nat) : NoDup (positions s).
Proof.
  unfold positions.
  assert (G : ∀ ix : list nat, NoDup ix →
            NoDup (flat_map (λ i : nat, map (λ j : nat, (i, j)) (seq 0 s.2)) ix)).
  { induction ix as [| i ix IH]; intros Hnd; simpl; [constructor |].
    apply NoDup_cons in Hnd as [Hi Hnd]. apply NoDup_app. split; [| split].
    - apply NoDup_fmap_2; [intros ?? [=]; done | apply NoDup_seq].
    - intros k Hk Hk'. apply list_elem_of_In, in_map_iff in Hk as (j & <- & _).
      apply list_elem_of_In, in_flat_map in Hk' as (i' & Hi' & Hk').
      apply in_map_iff in Hk' as (j' & [= -> ->] & _).
      apply Hi. by apply list_elem_of_In.
    - by apply IH. }
  apply G, NoDup_seq.
Qed.

Lemma sum_list_negated (bs : list bool) :
  Lib.sum_list (b2z <$> (negb <$> bs)) = Z.of_nat (length bs) - Lib.sum_list (b2z <$> bs).
Proof.
  induction bs as [| b bs IH]; [done |].
  cbn [fmap list_fmap Lib.sum_list foldr length].
  fold (Lib.sum_list (b2z <$> (negb <$> bs))). fold (Lib.sum_list (b2z <$> bs)).
  rewrite IH. destruct b; simpl b2z; lia.
Qed.

(** Singling out one position of a duplicate-free list in a sum. *)
Lemma sum_list_single (g : nat * nat → Z) (c : nat * nat) (a : Z) ps :
  NoDup ps → c ∈ ps →
  Lib.sum_list ((λ p, if decide (c = p) then a else g p) <$> ps)
  = a + Lib.sum_list (g <$> ps) - g c.
Proof.
  induction ps as [| p ps IH]; intros Hnd Hin; [by apply elem_of_nil in Hin |].
  apply NoDup_cons in Hnd as [Hp Hnd].
  cbn [fmap list_fmap Lib.sum_list foldr].
  fold (Lib.sum_list ((λ p, if decide (c = p) then a else g p) <$> ps)).
  fold (Lib.sum_list (g <$> ps)).
  destruct (decide (c = p)) as [<- | Hne].
  - assert (G : (λ p, if decide (c = p) then a else g p) <$> ps = g <$> ps).
    { apply list_fmap_ext. intros i p Hi.
      destruct (decide (c = p)) as [<- |]; [| done].
      exfalso. apply Hp. by eapply list_elem_of_lookup_2. }
    rewrite G. lia.
  - apply elem_of_cons in Hin as [-> | Hin]; [done |].
    rewrite IH by done. lia.
Qed.

Lemma get_at_absent {A} (k : nat * nat) cs (xs : list A) :
  k ∉ cs → Lib.get_at k cs xs = None.
Proof.
  revert xs. induction cs as [| c cs IH]; intros [| x xs] Hk; simpl; try done.
  apply not_elem_of_cons in Hk as [Hne Hk].
  rewrite decide_False by done. by apply IH.
Qed.

(** Over all positions, the stored [True]s of a canonical boolean pattern
    are exactly the [True]s of the dense reading. *)
Lemma sum_bool_at (ps cs : list (nat * nat)) (l : list bool) :
  NoDup ps → NoDup cs → length cs = length l → (∀ c, c ∈ cs → c ∈ ps) →
  Lib.sum_list ((λ p, b2z (Lib.bool_at cs l p)) <$> ps) = Lib.sum_list (b2z <$> l).
Proof.
  intros Hps. revert l. induction cs as [| c cs IH]; intros [| x l] Hcs Hlen Hin;
    try done.
  - simpl. induction ps as [| p ps IHp]; [done |].
    apply NoDup_cons in Hps as [_ Hps]. specialize (IHp Hps).
    cbn [fmap list_fmap Lib.sum_list foldr] in *. unfold Lib.sum_list in IHp.
    rewrite IHp; [done | intros c Hc; by apply elem_of_nil in Hc].
  - apply NoDup_cons in Hcs as [Hc Hcs].
    assert (G : (λ p, b2z (Lib.bool_at (c :: cs) (x :: l) p)) <$> ps
                = (λ p, if decide (c = p) then b2z x
                        else b2z (Lib.bool_at cs l p)) <$> ps).
    { apply list_fmap_ext. intros i p _. unfold Lib.bool_at. simpl.
      by destruct (decide (c = p)). }
    rewrite G, (sum_list_single (λ p, b2z (Lib.bool_at cs l p))); [| done |].
    + rewrite IH; [| done | by inversion Hlen |].
      * unfold Lib.bool_at at 1. rewrite get_at_absent by done.
        cbn [fmap list_fmap Lib.sum_list foldr default b2z]. 
        fold (Lib.sum_list (b2z <$> l)). lia.
      * intros c' Hc'. apply Hin. by right.
    + apply Hin. by left.
Qed.

Lemma canonical_spec (n : spmatrix) :
  canonical n = true →
  length (sp_coords n) = arr_len (sp_data n)
  ∧ (∀ c, c ∈ sp_coords n → c ∈ positions (sp_shape n))
  ∧ NoDup (sp_coords n).
Proof.
  unfold canonical. rewrite !andb_true_iff, Nat.eqb_eq, forallb_forall.
  intros [[Hlen Hin] Hnd]. split; [done |]. split.
  - intros c Hc. apply positions_spec, Hin. by apply list_elem_of_In.
  - by apply bool_decide_eq_true in Hnd.
Qed.

Lemma count_true_complement (n : spmatrix) (l : list bool) :
  canonical n = true → sp_data n = BoolArr l →
  count_true (dense_invert (Lib.toarray n))
  = Z.of_nat (shape_product (sp_shape n)) - Lib.sum_all n.
Proof.
  intros Hc Hl. destruct (canonical_spec n Hc) as (Hlen & Hin & Hnd).
  unfold Lib.toarray, Lib.sum_all. rewrite Hl in *. simpl in Hlen.
  cbn [dense_invert count_true arr_items].
  rewrite <- (concat_map), concat_grid, sum_list_negated.
  rewrite length_fmap, positions_length. f_equal.
  rewrite <- !list_fmap_compose.
  change (scalar_num ∘ SBool) with b2z.
  by rewrite <- (sum_bool_at (positions (sp_shape n)) (sp_coords n) l)
    by (first [apply positions_nodup | done]).
Qed.



(** ** Unsupported operands *)

Lemma run_sp_subscript h l m key :
  h !! l = Some m → sp_subscript l key h = (Lib.getitem m key, h).
Proof. intros E. unfold sp_subscript. by step. Qed.




(** ** The dtype of the complement *)

(** What the constructor establishes: whatever the dtype of [negative] and
    the value of [copy], the complement of the new wrapper is boolean. *)
Lemma mtm_init_complement_boolean h l m copy :
  h !! l = Some m →
  ∃ w h' n, mtm_init l copy h = (Ok w, h')
            ∧ h' !! negative w = Some n ∧ sp_dtype n = DBool
            ∧ ∀ k, Lib.element n k = dtype_type DBool (scalar_num (Lib.element m k)).
Proof.
  intros E. destruct (decide (sp_dtype m = DBool)) as [Hb | Hb].
  - assert (Hk : ∀ k, Lib.element m k = dtype_type DBool (scalar_num (Lib.element m k))).
    { intros k. destruct (bool_data m Hb) as [bs Hl].
      unfold Lib.element. rewrite Hl. simpl. by destruct (Lib.bool_at _ _ _). }
    destruct copy.
    + eexists _, _, m. split; [by eapply run_mtm_init_copy |].
      split; [apply lookup_insert_eq | done].
    + exists (Mtm l), h, m. split; [by eapply run_mtm_init_nocopy | done].
  - eexists _, _, _. split; [by eapply run_mtm_init_cast |].
    split; [apply lookup_insert_eq |]. split.
    + unfold sp_dtype. simpl. by destruct (sp_data m).
    + intros k. unfold Lib.element, sp_dtype in *. simpl.
      destruct (sp_data m) as [bs | wd zs]; [done |]. simpl.
      unfold Lib.bool_at, Lib.int_at. rewrite get_at_fmap.
      by destruct (Lib.get_at k (sp_coords m) zs).
Qed.

(** C6 fails on an assignment to the attribute [dtype]: the wrapper made
    from the boolean sample has a boolean complement; [w.dtype = int8] goes
    through [_delegate.__set__] to [_set_dtype] of the complement, whose
    dtype is then [int8]; a read [w[0, 0]] after it is the bitwise [~0],
    which is [-1], no boolean. *)
Theorem C6_dtype_assignment_breaks_boolean :
  ∃ w h1 n1 h2 n2,
    mtm_init 1%nat true sample_store = (Ok w, h1)
    ∧ h1 !! negative w = Some n1 ∧ sp_dtype n1 = DBool
    ∧ mtm_getitem w (VTuple 0 0) h1 = (Ok (VScalar (SBool true)), h1)
    ∧ mtm_setattr w "dtype" (VDtype (DInt W8)) h1 = (Ok tt, h2)
    ∧ h2 !! negative w = Some n2 ∧ sp_dtype n2 = DInt W8
    ∧ mtm_getattr w "dtype" h2 = (Ok (VDtype (DInt W8)), h2)
    ∧ mtm_getitem w (VTuple 0 0) h2 = (Ok (VScalar (SInt (-1))), h2).
Proof.
  eexists _, _, _, _, _.
  split; [vm_compute; reflexivity |].
  split; [vm_compute; reflexivity |]. split; [reflexivity |].
  split; [vm_compute; reflexivity |].
  split; [vm_compute; reflexivity |].
  split; [vm_compute; reflexivity |]. split; [reflexivity |].
  split; vm_compute; reflexivity.
Qed.

(** ** Negating a comparison *)

Lemma arr_invert_involutive (a : ndarray) : arr_invert (arr_invert a) = a.
Proof.
  destruct a as [l | w l]; simpl; f_equal; rewrite <- list_fmap_compose.
  - rewrite <- (list_fmap_id l) at 2. apply list_fmap_ext. intros _ b _.
    apply negb_involutive.
  - rewrite <- (list_fmap_id l) at 2. apply list_fmap_ext. intros _ z _.
    simpl. lia.
Qed.

Lemma run_relative_plain (op : relop) (s : scalar) h l m :
  h !! l = Some m → relop_scalar op (SInt 0) s = false →
  _relative l (VScalar s) op h
  = (Ok (VSpm (fresh (dom h))),
     <[fresh (dom h) := with_data_of m (relop_arr op (sp_data m) s)]> h).
Proof.
  intros E Hz. unfold _relative. simpl. step. rewrite Hz.
  by erewrite run_bind_ok by (by apply run_with_data).
Qed.

Lemma run_relative_mostly (op : relop) (s : scalar) h l m :
  h !! l = Some m → relop_scalar op (SInt 0) s = true →
  let n := with_data_of m (arr_invert (relop_arr op (sp_data m) s)) in
  let h1 := <[fresh (dom h) := n]> h in
  _relative l (VScalar s) op h
  = (Ok (VMtm (Mtm (fresh (dom h1)))), <[fresh (dom h1) := n]> h1).
Proof.
  intros E Hz n h1. unfold _relative. simpl. step. rewrite Hz.
  erewrite run_bind_ok by (by apply run_with_data).
  fold n. fold h1.
  erewrite run_bind_ok
    by (by apply (run_mtm_init_copy h1 (fresh (dom h)) n); [apply lookup_insert_eq |]).
  done.
Qed.



(** X2: on a [_data_matrix] [m] of an integer dtype, [~m] is a new matrix
    on the pattern of [m] and [~(~m)] is a new matrix with the very entries
    of [m]: the bitwise inversion undoes itself, and neither step touches
    [m]. *)
Theorem X2_integer_invert_twice (h : gmap loc spmatrix) (l : loc) (m : spmatrix) :
  h !! l = Some m →
  Lib.is_data_matrix (sp_format m) = true →
  sp_dtype m ≠ DBool →
  ∃ l1 h1 l2 h2,
    py_invert (VSpm l) h = (Ok (VSpm l1), h1)
    ∧ py_invert (VSpm l1) h1 = (Ok (VSpm l2), h2)
    ∧ l1 ≠ l ∧ l2 ≠ l ∧ l2 ≠ l1
    ∧ h2 !! l2 = Some m
    ∧ h2 !! l = Some m.
Proof.
  intros E Hd Hb.
  set (n := with_data_of m (arr_invert (sp_data m))).
  set (h1 := <[fresh (dom h) := n]> h).
  assert (E1 : h1 !! fresh (dom h) = Some n) by apply lookup_insert_eq.
  assert (Hbn : sp_dtype n ≠ DBool).
  { unfold sp_dtype in *. subst n. simpl. by destruct (sp_data m). }
  exists (fresh (dom h)), h1, (fresh (dom h1)), (<[fresh (dom h1) := m]> h1).
  split; [by erewrite run_py_invert_spm, run_dm_invert_other |].
  split.
  { erewrite (run_py_invert_spm h1 _ n), (run_dm_invert_other h1 _ n) by done.
    subst n. simpl. rewrite arr_invert_involutive.
    by replace (with_data_of (with_data_of m (arr_invert (sp_data m))) (sp_data m))
      with m by (by destruct m). }
  split; [by eapply fresh_other |].
  split; [eapply fresh_other; by apply alloc_keeps |].
  split; [by eapply fresh_other |].
  split; [apply lookup_insert_eq | by do 2 apply alloc_keeps].
Qed.

Lemma X2_integer_invert_twice_sample :
  ∃ l1 h1 l2 h2,
    py_invert (VSpm 0%nat) sample_store = (Ok (VSpm l1), h1)
    ∧ py_invert (VSpm l1) h1 = (Ok (VSpm l2), h2)
    ∧ l1 ≠ 0%nat ∧ l2 ≠ 0%nat ∧ l2 ≠ l1
    ∧ h2 !! l2 = Some sample_ints
    ∧ h2 !! 0%nat = Some sample_ints.
Proof.
  apply (X2_integer_invert_twice sample_store 0%nat sample_ints);
    [reflexivity | reflexivity | discriminate].
Defined.

(** ** Sharing and copies *)

Lemma run_invert_bool_scalar (v : bool) (h : gmap loc spmatrix) :
  py_invert (VScalar (SBool v)) h = (Ok (VScalar (SBool (negb v))), h).
Proof. reflexivity. Qed.

(** X3: the [copy] flag of the constructor decides who sees a write.  On
    a boolean matrix [m] and a key [(i, j)] that [m] accepts,
    [mostly_true_matrix(m, copy=False)] holds [m] itself, so [w[i, j] = v]
    stores the negation of [v] in [m]; [mostly_true_matrix(m)] holds a
    copy, so the same write leaves [m] as it was while [w[i, j]] reads
    [v]. *)
Theorem X3_constructor_copy_flag (h : gmap loc spmatrix) (l : loc) (m : spmatrix)
    (i j : nat) (x : value) (v : bool) :
  h !! l = Some m →
  sp_dtype m = DBool →
  Lib.getitem m (VTuple i j) = Ok x →
  (∃ w h',
     mtm_init l false h = (Ok w, h)
     ∧ negative w = l
     ∧ mtm_setitem w (VTuple i j) (VScalar (SBool v)) h = (Ok VNone, h')
     ∧ read h' (VSpm l) (i, j) = Some (SBool (negb v))
     ∧ read h' (VMtm w) (i, j) = Some (SBool v))
  ∧ (∃ w h1 h',
       mtm_init l true h = (Ok w, h1)
       ∧ negative w ≠ l
       ∧ mtm_setitem w (VTuple i j) (VScalar (SBool v)) h1 = (Ok VNone, h')
       ∧ h' !! l = Some m
       ∧ read h' (VMtm w) (i, j) = Some (SBool v)).
Proof.
  intros E Hb Hx.
  destruct (getitem_valid _ _ _ Hx) as (Ha & i' & j' & [= <- <-] & Hr & _).
  destruct (with_entry_bool m (i, j) (negb v) Hb) as (_ & _ & _ & He & _).
  split.
  - exists (Mtm l), (<[l := Lib.with_entry m (i, j) (SBool (negb v))]> h).
    split; [by eapply run_mtm_init_nocopy |]. split; [done |].
    split; [by apply run_mtm_setitem |].
    split.
    + erewrite read_spm by apply lookup_insert_eq. by rewrite He.
    + erewrite read_mtm by apply lookup_insert_eq. rewrite He. simpl.
      by rewrite negb_involutive.
  - set (l1 := fresh (dom h)). set (h1 := <[l1 := m]> h).
    assert (E1 : h1 !! l1 = Some m) by apply lookup_insert_eq.
    exists (Mtm l1), h1, (<[l1 := Lib.with_entry m (i, j) (SBool (negb v))]> h1).
    split; [by eapply run_mtm_init_copy |].
    split; [by eapply fresh_other |].
    split; [by apply (run_mtm_setitem (Mtm l1) h1 m) |].
    split.
    + rewrite lookup_insert_ne by (by eapply fresh_other). by apply alloc_keeps.
    + erewrite read_mtm by apply lookup_insert_eq. rewrite He. simpl.
      by rewrite negb_involutive.
Qed.

Lemma X3_constructor_copy_flag_sample :
  (∃ w h',
     mtm_init 1%nat false sample_store = (Ok w, sample_store)
     ∧ negative w = 1%nat
     ∧ mtm_setitem w (VTuple 0 0) (VScalar (SBool false)) sample_store = (Ok VNone, h')
     ∧ read h' (VSpm 1%nat) (0%nat, 0%nat) = Some (SBool (negb false))
     ∧ read h' (VMtm w) (0%nat, 0%nat) = Some (SBool false))
  ∧ (∃ w h1 h',
       mtm_init 1%nat true sample_store = (Ok w, h1)
       ∧ negative w ≠ 1%nat
       ∧ mtm_setitem w (VTuple 0 0) (VScalar (SBool false)) h1 = (Ok VNone, h')
       ∧ h' !! 1%nat = Some sample_bools
       ∧ read h' (VMtm w) (0%nat, 0%nat) = Some (SBool false)).
Proof.
  apply (X3_constructor_copy_flag sample_store 1%nat sample_bools 0 0
           (VScalar (SBool false)) false); reflexivity.
Defined.

(** X4: a write through [w.copy()] is not seen through [w].  For a
    [mostly_true_matrix] [w] (its complement boolean) and a key [(i, j)]
    that the complement accepts, [c = w.copy(); c[i, j] = v] leaves the
    complement of [w] as it was; [c] reads [v] at [(i, j)] and as [w] does
    everywhere else. *)
Theorem X4_copy_isolates_writes (w : mtm) (h : gmap loc spmatrix) (n : spmatrix)
    (i j : nat) (x : value) (v : bool) :
  h !! negative w = Some n →
  sp_dtype n = DBool →
  Lib.getitem n (VTuple i j) = Ok x →
  ∃ c h1 h2,
    mtm_call w "copy" [] h = (Ok (VMtm c), h1)
    ∧ negative c ≠ negative w
    ∧ mtm_setitem c (VTuple i j) (VScalar (SBool v)) h1 = (Ok VNone, h2)
    ∧ h2 !! negative w = Some n
    ∧ read h2 (VMtm c) (i, j) = Some (SBool v)
    ∧ ∀ k, k ≠ (i, j) → read h2 (VMtm c) k = read h (VMtm w) k.
Proof.
  intros E Hb Hx.
  destruct (getitem_valid _ _ _ Hx) as (Ha & i' & j' & [= <- <-] & Hr & _).
  destruct (with_entry_bool n (i, j) (negb v) Hb) as (_ & _ & _ & He & Ho).
  set (l1 := fresh (dom h)). set (h1 := <[l1 := n]> h).
  assert (E1 : h1 !! l1 = Some n) by apply lookup_insert_eq.
  exists (Mtm l1), h1, (<[l1 := Lib.with_entry n (i, j) (SBool (negb v))]> h1).
  split.
  { apply (run_mtm_call_nocopy w h n "copy" [] l1 h1 n); try done.
    - eapply run_nocopy_getattr; eauto.
      eexists. split; [reflexivity | exact I].
    - unfold sp_call. step. simpl.
      by erewrite run_bind_ok by (by apply run_sp_copy). }
  split; [by eapply fresh_other |].
  split; [by apply (run_mtm_setitem (Mtm l1) h1 n) |].
  split.
  { rewrite lookup_insert_ne by (by eapply fresh_other). by apply alloc_keeps. }
  split.
  - erewrite read_mtm by apply lookup_insert_eq. rewrite He. simpl.
    by rewrite negb_involutive.
  - intros k Hk. erewrite !read_mtm by (first [apply lookup_insert_eq | eassumption]).
    by rewrite Ho.
Qed.

Lemma X4_copy_isolates_writes_sample :
  ∃ c h1 h2,
    mtm_call (Mtm 1%nat) "copy" [] sample_store = (Ok (VMtm c), h1)
    ∧ negative c ≠ 1%nat
    ∧ mtm_setitem c (VTuple 0 0) (VScalar (SBool false)) h1 = (Ok VNone, h2)
    ∧ h2 !! 1%nat = Some sample_bools
    ∧ read h2 (VMtm c) (0%nat, 0%nat) = Some (SBool false)
    ∧ ∀ k, k ≠ (0%nat, 0%nat) → read h2 (VMtm c) k = read sample_store (VMtm (Mtm 1%nat)) k.
Proof.
  apply (X4_copy_isolates_writes (Mtm 1%nat) sample_store sample_bools 0 0
           (VScalar (SBool false)) false); reflexivity.
Defined.

(** ** The property [T] *)

Lemma run_mtm_T w h n :
  h !! negative w = Some n → sp_dtype n = DBool →
  mtm_getattr w "T" h
  = (Ok (VMtm (Mtm (fresh (dom h)))),
     <[fresh (dom h) :=
         {| sp_format := Lib.transposed_format (sp_format n);
            sp_shape := Lib.swap (sp_shape n);
            sp_coords := Lib.swap <$> sp_coords n;
            sp_data := sp_data n |}]> h).
Proof.
  intros E Hb.
  change (mtm_getattr w "T")
    with (f ← _delegate_mtm_nocopy_get "transpose" w; py_call f []).
  unfold _delegate_mtm_nocopy_get.
  erewrite (run_bind_ok (_ ≫= _)); [| erewrite run_bind_ok; [reflexivity |]].
  2: { unfold sp_getattr. by step. }
  cbn [py_call].
  erewrite run_bind_ok.
  2: { unfold sp_call. step. simpl. unfold Lib.transpose. by step. }
  cbv beta iota.
  by erewrite run_bind_ok
    by (eapply run_mtm_init_nocopy; [apply lookup_insert_eq | done]).
Qed.

Lemma swap_swap (k : nat * nat) : Lib.swap (Lib.swap k) = k.
Proof. by destruct k. Qed.

(** X5: [w.T] of a [mostly_true_matrix] [w] (its complement boolean) is a
    wrapper with the shape turned round that reads at [(j, i)] what [w]
    reads at [(i, j)], and [w.T.T] has the shape of [w] and reads as [w]
    does at every position. *)
Theorem X5_T_twice (w : mtm) (h : gmap loc spmatrix) (n : spmatrix) :
  h !! negative w = Some n →
  sp_dtype n = DBool →
  ∃ t h1 u h2,
    mtm_getattr w "T" h = (Ok (VMtm t), h1)
    ∧ mtm_getattr t "T" h1 = (Ok (VMtm u), h2)
    ∧ mtm_getattr t "shape" h1 = (Ok (VTuple (sp_shape n).2 (sp_shape n).1), h1)
    ∧ mtm_getattr u "shape" h2 = (Ok (VTuple (sp_shape n).1 (sp_shape n).2), h2)
    ∧ (∀ k, read h1 (VMtm t) (Lib.swap k) = read h (VMtm w) k)
    ∧ (∀ k, read h2 (VMtm u) k = read h (VMtm w) k).
Proof.
  intros E Hb.
  set (n1 := {| sp_format := Lib.transposed_format (sp_format n);
                sp_shape := Lib.swap (sp_shape n);
                sp_coords := Lib.swap <$> sp_coords n;
                sp_data := sp_data n |}).
  set (l1 := fresh (dom h)). set (h1 := <[l1 := n1]> h).
  assert (E1 : h1 !! negative (Mtm l1) = Some n1) by apply lookup_insert_eq.
  set (n2 := {| sp_format := Lib.transposed_format (sp_format n1);
                sp_shape := Lib.swap (sp_shape n1);
                sp_coords := Lib.swap <$> sp_coords n1;
                sp_data := sp_data n1 |}).
  set (l2 := fresh (dom h1)). set (h2 := <[l2 := n2]> h1).
  assert (E2 : h2 !! negative (Mtm l2) = Some n2) by apply lookup_insert_eq.
  exists (Mtm l1), h1, (Mtm l2), h2.
  split; [by apply run_mtm_T |].
  split; [by apply (run_mtm_T (Mtm l1) h1 n1) |].
  split.
  { change (mtm_getattr (Mtm l1) "shape") with (_delegate_get "shape" (Mtm l1)).
    unfold _delegate_get. by erewrite getattr_shape by exact E1. }
  split.
  { change (mtm_getattr (Mtm l2) "shape") with (_delegate_get "shape" (Mtm l2)).
    unfold _delegate_get. erewrite getattr_shape by exact E2.
    subst n2 n1. simpl. by destruct (sp_shape n). }
  split; intros k.
  - erewrite !read_mtm by eassumption. f_equal. f_equal.
    by apply element_swapped.
  - erewrite !read_mtm by eassumption. f_equal. f_equal.
    rewrite <- (swap_swap k) at 1.
    rewrite (element_swapped n1 n2) by done.
    by apply element_swapped.
Qed.

Lemma X5_T_twice_sample :
  ∃ t h1 u h2,
    mtm_getattr (Mtm 1%nat) "T" sample_store = (Ok (VMtm t), h1)
    ∧ mtm_getattr t "T" h1 = (Ok (VMtm u), h2)
    ∧ mtm_getattr t "shape" h1 = (Ok (VTuple 3 2), h1)
    ∧ mtm_getattr u "shape" h2 = (Ok (VTuple 2 3), h2)
    ∧ (∀ k, read h1 (VMtm t) (Lib.swap k) = read sample_store (VMtm (Mtm 1%nat)) k)
    ∧ (∀ k, read h2 (VMtm u) k = read sample_store (VMtm (Mtm 1%nat)) k).
Proof.
  apply (X5_T_twice (Mtm 1%nat) sample_store sample_bools); reflexivity.
Defined.

(** ** Sums along an axis *)

(** Over duplicate-free positions [ps] that hold exactly the stored
    coordinates selected by [p], the readings add up to the selected
    entries. *)
Lemma sum_selected {A} (g : A → Z) (p : nat * nat → bool)
    (ps cs : list (nat * nat)) (xs : list A) :
  NoDup ps → NoDup cs → length cs = length xs →
  (∀ c, c ∈ cs → p c = true → c ∈ ps) →
  (∀ q, q ∈ ps → p q = true) →
  Lib.sum_list ((λ q, default 0 (g <$> Lib.get_at q cs xs)) <$> ps)
  = Lib.sum_list ((λ e, g e.2) <$> filter (λ e, p e.1 = true) (zip cs xs)).
Proof.
  intros Hps. revert xs.
  induction cs as [| c cs IH]; intros [| x xs] Hcs Hlen Hin Hp; try done.
  - simpl. clear. induction ps as [| q ps IHq]; [done |].
    cbn [fmap list_fmap Lib.sum_list foldr] in *. unfold Lib.sum_list in IHq.
    by rewrite IHq.
  - apply NoDup_cons in Hcs as [Hc Hcs].
    assert (IH' : Lib.sum_list ((λ q, default 0 (g <$> Lib.get_at q cs xs)) <$> ps)
                  = Lib.sum_list ((λ e, g e.2) <$> filter (λ e, p e.1 = true) (zip cs xs))).
    { apply IH; [done | by inversion Hlen | | done].
      intros c' Hc' Hpc. apply Hin; [by right | done]. }
    assert (G : (λ q, default 0 (g <$> Lib.get_at q (c :: cs) (x :: xs))) <$> ps
                = (λ q, if decide (c = q) then g x
                        else default 0 (g <$> Lib.get_at q cs xs)) <$> ps).
    { apply list_fmap_ext. intros _ q _. simpl. by destruct (decide (c = q)). }
    rewrite G. cbn [zip zip_with]. rewrite filter_cons. cbn [fst].
    destruct (decide (p c = true)) as [Hpc | Hpc].
    + rewrite (sum_list_single (λ q, default 0 (g <$> Lib.get_at q cs xs)));
        [| done | by apply Hin; [left |]].
      rewrite IH', get_at_absent by done.
      cbn [fmap list_fmap Lib.sum_list foldr option_fmap option_map default snd].
      unfold Lib.sum_list. lia.
    + rewrite <- IH'. f_equal. apply list_fmap_ext. intros n q Hq.
      destruct (decide (c = q)) as [<- |]; [| done].
      exfalso. apply Hpc, Hp. by eapply list_elem_of_lookup_2.
Qed.

Lemma sum_list_negb_fmap {A} (f : A → bool) (l : list A) :
  Lib.sum_list ((λ a, b2z (negb (f a))) <$> l)
  = Z.of_nat (length l) - Lib.sum_list ((λ a, b2z (f a)) <$> l).
Proof.
  induction l as [| a l IH]; [done |].
  cbn [fmap list_fmap Lib.sum_list foldr length] in *. unfold Lib.sum_list in IH.
  rewrite IH. destruct (f a); simpl b2z; lia.
Qed.

Lemma bool_at_items cs (l : list bool) q :
  default 0 (scalar_num <$> Lib.get_at q cs (SBool <$> l)) = b2z (Lib.bool_at cs l q).
Proof.
  unfold Lib.bool_at. rewrite get_at_fmap. by destruct (Lib.get_at q cs l).
Qed.

(** The stored [True]s of column [j] are those the dense reading shows. *)
Lemma sum_where_column (n : spmatrix) (l : list bool) (j : nat) :
  canonical n = true → sp_data n = BoolArr l →
  Lib.sum_where n (λ k, (k.2 =? j)%nat)
  = Lib.sum_list ((λ i, b2z (Lib.bool_at (sp_coords n) l (i, j))) <$> seq 0 (sp_shape n).1).
Proof.
  intros Hc Hl. destruct (canonical_spec n Hc) as (Hlen & Hin & Hnd).
  unfold Lib.sum_where, Lib.entries. rewrite Hl in *. simpl arr_items.
  rewrite <- (sum_selected scalar_num (λ k, (k.2 =? j)%nat)
                ((λ i, (i, j)) <$> seq 0 (sp_shape n).1)).
  - rewrite <- list_fmap_compose. f_equal. apply list_fmap_ext. intros _ i _. simpl.
    apply bool_at_items.
  - apply NoDup_fmap_2; [intros ?? [=]; done | apply NoDup_seq].
  - done.
  - simpl in Hlen. by rewrite length_fmap.
  - intros [ci cj] Hc' Hp. simpl in Hp. apply Nat.eqb_eq in Hp as ->.
    apply list_elem_of_fmap. exists ci. split; [done |].
    apply Hin, positions_spec in Hc'. unfold Lib.in_range in Hc'.
    apply andb_true_iff in Hc' as [H1 _]. apply Nat.ltb_lt in H1.
    apply list_elem_of_In, in_seq. simpl in H1. lia.
  - intros q Hq. apply list_elem_of_fmap in Hq as (i & -> & _). simpl.
    apply Nat.eqb_refl.
Qed.

Lemma sum_where_row (n : spmatrix) (l : list bool) (i : nat) :
  canonical n = true → sp_data n = BoolArr l →
  Lib.sum_where n (λ k, (k.1 =? i)%nat)
  = Lib.sum_list ((λ j, b2z (Lib.bool_at (sp_coords n) l (i, j))) <$> seq 0 (sp_shape n).2).
Proof.
  intros Hc Hl. destruct (canonical_spec n Hc) as (Hlen & Hin & Hnd).
  unfold Lib.sum_where, Lib.entries. rewrite Hl in *. simpl arr_items.
  rewrite <- (sum_selected scalar_num (λ k, (k.1 =? i)%nat)
                ((λ j, (i, j)) <$> seq 0 (sp_shape n).2)).
  - rewrite <- list_fmap_compose. f_equal. apply list_fmap_ext. intros _ j _. simpl.
    apply bool_at_items.
  - apply NoDup_fmap_2; [intros ?? [=]; done | apply NoDup_seq].
  - done.
  - simpl in Hlen. by rewrite length_fmap.
  - intros [ci cj] Hc' Hp. simpl in Hp. apply Nat.eqb_eq in Hp as ->.
    apply list_elem_of_fmap. exists cj. split; [done |].
    apply Hin, positions_spec in Hc'. unfold Lib.in_range in Hc'.
    apply andb_true_iff in Hc' as [_ H2]. apply Nat.ltb_lt in H2.
    apply list_elem_of_In, in_seq. simpl in H2. lia.
  - intros q Hq. apply list_elem_of_fmap in Hq as (j & -> & _). simpl.
    apply Nat.eqb_refl.
Qed.

(** Writes Stdlib's [map] as stdpp's [fmap], to which it is convertible. *)
Ltac to_fmap :=
  repeat match goal with
         | |- context [@map ?A ?B ?f ?l] => change (@map A B f l) with (f <$> l)
         end.

Lemma column_trues_inverted (f : nat * nat → bool) (s : nat * nat) (j : nat) :
  (j < s.2)%nat →
  column_trues (dense_invert (BoolMat (Lib.grid f s))) j
  = Z.of_nat s.1 - Lib.sum_list ((λ i, b2z (f (i, j))) <$> seq 0 s.1).
Proof.
  intros Hj. unfold column_trues, dense_invert, Lib.grid.
  to_fmap. rewrite <- !list_fmap_compose.
  replace (Z.of_nat s.1) with (Z.of_nat (length (seq 0 s.1)))
    by (by rewrite length_seq).
  rewrite <- sum_list_negb_fmap.
  f_equal. apply list_fmap_ext. intros _ i _. simpl.
  to_fmap. rewrite !list_lookup_fmap, lookup_seq_lt by done. done.
Qed.

Lemma row_trues_inverted (f : nat * nat → bool) (s : nat * nat) (i : nat) :
  (i < s.1)%nat →
  row_trues (dense_invert (BoolMat (Lib.grid f s))) i
  = Z.of_nat s.2 - Lib.sum_list ((λ j, b2z (f (i, j))) <$> seq 0 s.2).
Proof.
  intros Hi. unfold row_trues, dense_invert, Lib.grid.
  to_fmap. rewrite !list_lookup_fmap, lookup_seq_lt by done. simpl.
  to_fmap. rewrite <- !list_fmap_compose.
  replace (Z.of_nat s.2) with (Z.of_nat (length (seq 0 s.2)))
    by (by rewrite length_seq).
  by rewrite <- sum_list_negb_fmap.
Qed.

(** X6: on a [mostly_true_matrix] [w] (its complement boolean and
    canonical), [w.sum(0)] is the list of the numbers of [True] entries of
    the columns of [w.toarray()], and [w.sum(1)] that of its rows: the
    column sums of the complement are taken from the number of rows, the
    row sums from the number of columns. *)
Theorem X6_sum_along_axis (w : mtm) (h : gmap loc spmatrix) (n : spmatrix) :
  h !! negative w = Some n →
  sp_dtype n = DBool →
  canonical n = true →
  ∃ d,
    mtm_call w "toarray" [] h = (Ok (VDense d), h)
    ∧ mtm_sum w (VScalar (SInt 0)) h
      = (Ok (VCounts (map (column_trues d) (seq 0 (sp_shape n).2))), h)
    ∧ mtm_sum w (VScalar (SInt 1)) h
      = (Ok (VCounts (map (row_trues d) (seq 0 (sp_shape n).1))), h).
Proof.
  intros E Hb Hc. destruct (bool_data n Hb) as [l Hl].
  exists (dense_invert (Lib.toarray n)). split.
  { rewrite (run_mtm_call_inverted w h n "toarray" (VDense (Lib.toarray n)));
      [done | done | by right | unfold sp_call; by step]. }
  assert (Hshape : mtm_getattr w "shape" h
                   = (Ok (VTuple (sp_shape n).1 (sp_shape n).2), h)).
  { change (mtm_getattr w "shape") with (_delegate_get "shape" w).
    unfold _delegate_get. by apply getattr_shape. }
  unfold Lib.toarray. rewrite Hl.
  set (d := dense_invert (BoolMat (Lib.grid (Lib.bool_at (sp_coords n) l) (sp_shape n)))).
  split.
  - unfold mtm_sum.
    erewrite run_bind_ok; [| unfold sp_call; step; reflexivity].
    erewrite run_bind_ok by exact Hshape. simpl. unfold minus_from.
    rewrite run_ret. do 3 f_equal. unfold Lib.sum_axis0.
    to_fmap. rewrite <- list_fmap_compose.
    apply list_fmap_ext. intros idx j Hj. unfold compose.
    apply lookup_seq in Hj as [-> Hj]. rewrite Nat.add_0_l. subst d.
    rewrite column_trues_inverted by done.
    by erewrite sum_where_column by eassumption.
  - unfold mtm_sum.
    erewrite run_bind_ok; [| unfold sp_call; step; reflexivity].
    erewrite run_bind_ok by exact Hshape. simpl. unfold minus_from.
    rewrite run_ret. do 3 f_equal. unfold Lib.sum_axis1.
    to_fmap. rewrite <- list_fmap_compose.
    apply list_fmap_ext. intros idx i Hi. unfold compose.
    apply lookup_seq in Hi as [-> Hi]. rewrite Nat.add_0_l. subst d.
    rewrite row_trues_inverted by done.
    by erewrite sum_where_row by eassumption.
Qed.

Lemma X6_sum_along_axis_sample :
  ∃ d,
    mtm_call (Mtm 1%nat) "toarray" [] sample_store = (Ok (VDense d), sample_store)
    ∧ mtm_sum (Mtm 1%nat) (VScalar (SInt 0)) sample_store
      = (Ok (VCounts (map (column_trues d) (seq 0 3))), sample_store)
    ∧ mtm_sum (Mtm 1%nat) (VScalar (SInt 1)) sample_store
      = (Ok (VCounts (map (row_trues d) (seq 0 2))), sample_store).
Proof.
  apply (X6_sum_along_axis (Mtm 1%nat) sample_store sample_bools); reflexivity.
Defined.

(** ** The greatest and the least element *)

Lemma get_at_some {A} (k : nat * nat) cs (xs : list A) x :
  Lib.get_at k cs xs = Some x → x ∈ xs ∧ k ∈ cs.
Proof.
  revert xs. induction cs as [| c cs IH]; intros [| y xs]; simpl; try done.
  destruct (decide (c = k)) as [-> | Hne].
  - intros [= ->]. split; left.
  - intros G. destruct (IH _ G). split; by right.
Qed.

Lemma get_at_stored {A} (k : nat * nat) cs (xs : list A) :
  k ∈ cs → length cs = length xs → ∃ x, Lib.get_at k cs xs = Some x.
Proof.
  revert xs. induction cs as [| c cs IH]; intros [| y xs] Hk Hlen; simpl;
    try done.
  - by apply elem_of_nil in Hk.
  - destruct (decide (c = k)); [by eexists |].
    apply elem_of_cons in Hk as [-> | Hk]; [done |].
    apply IH; [done | by inversion Hlen].
Qed.

Lemma entry_coordinate {A} cs (xs : list A) x :
  NoDup cs → length cs = length xs → x ∈ xs →
  ∃ c, c ∈ cs ∧ Lib.get_at c cs xs = Some x.
Proof.
  revert xs. induction cs as [| c cs IH]; intros [| y xs] Hnd Hlen Hx;
    try done.
  - by apply elem_of_nil in Hx.
  - apply NoDup_cons in Hnd as [Hc Hnd].
    apply elem_of_cons in Hx as [-> | Hx].
    + exists c. split; [left |]. simpl. by rewrite decide_True.
    + destruct (IH xs Hnd ltac:(by inversion Hlen) Hx) as (c' & Hc' & G).
      exists c'. split; [by right |]. simpl.
      rewrite decide_False; [done |]. intros ->. done.
Qed.

(** With as many stored entries as positions, every position is stored;
    with fewer, some position is not. *)
Lemma all_positions_stored (m : spmatrix) (k : nat * nat) :
  canonical m = true → sp_nnz m = shape_product (sp_shape m) →
  Lib.in_range (sp_shape m) k = true → k ∈ sp_coords m.
Proof.
  intros Hc Hfull Hk. destruct (canonical_spec m Hc) as (Hlen & Hin & Hnd).
  assert (Hsub : sp_coords m ⊆+ positions (sp_shape m))
    by (by apply NoDup_submseteq).
  apply submseteq_length_Permutation in Hsub.
  - rewrite Hsub. by apply positions_spec.
  - rewrite positions_length, Hlen. unfold sp_nnz in Hfull. lia.
Qed.

Lemma some_position_unstored (m : spmatrix) :
  canonical m = true → (sp_nnz m < shape_product (sp_shape m))%nat →
  ∃ k, Lib.in_range (sp_shape m) k = true ∧ k ∉ sp_coords m.
Proof.
  intros Hc Hlt. destruct (canonical_spec m Hc) as (Hlen & Hin & Hnd).
  destruct (decide (Forall (λ p, p ∈ sp_coords m) (positions (sp_shape m))))
    as [Hall | Hex].
  - exfalso.
    assert (Hsub : positions (sp_shape m) ⊆+ sp_coords m).
    { apply NoDup_submseteq; [apply positions_nodup |]. by apply Forall_forall. }
    apply submseteq_length in Hsub. rewrite positions_length, Hlen in Hsub.
    unfold sp_nnz in Hlt. lia.
  - apply not_Forall_Exists in Hex; [| apply _].
    apply Exists_exists in Hex as (k & Hk & Hn).
    exists k. split; [by apply positions_spec | done].
Qed.

Lemma nnz_at_most_size (m : spmatrix) :
  canonical m = true → (sp_nnz m ≤ shape_product (sp_shape m))%nat.
Proof.
  intros Hc. destruct (canonical_spec m Hc) as (Hlen & Hin & Hnd).
  assert (Hsub : sp_coords m ⊆+ positions (sp_shape m))
    by (by apply NoDup_submseteq).
  apply submseteq_length in Hsub. rewrite positions_length, Hlen in Hsub.
  by unfold sp_nnz.
Qed.

Lemma some_position (s : nat * nat) :
  (0 < shape_product s)%nat → ∃ k, Lib.in_range s k = true.
Proof.
  intros Hs. rewrite <- positions_length in Hs.
  destruct (positions s) as [| k ps] eqn:P; [simpl in Hs; lia |].
  exists k. apply positions_spec. rewrite P. left.
Qed.

Lemma element_unstored (m : spmatrix) (k : nat * nat) :
  k ∉ sp_coords m → Lib.element m k = dtype_type (sp_dtype m) 0.
Proof. intros Hk. by rewrite element_stored, get_at_absent. Qed.

(** An element is a stored entry or the zero of the dtype. *)
Lemma element_cases (m : spmatrix) (k : nat * nat) :
  (Lib.element m k ∈ arr_items (sp_data m) ∧ k ∈ sp_coords m)
  ∨ (Lib.element m k = dtype_type (sp_dtype m) 0
     ∧ Lib.get_at k (sp_coords m) (arr_items (sp_data m)) = None).
Proof.
  rewrite element_stored.
  destruct (Lib.get_at k (sp_coords m) (arr_items (sp_data m))) as [x |] eqn:G.
  - left. simpl. by apply get_at_some in G.
  - by right.
Qed.

Lemma run_minmax_max h l m :
  h !! l = Some m →
  minmax_max l h
  = (if (sp_nnz m =? 0)%nat then Ok (dtype_type (sp_dtype m) 0)
     else match np_max (sp_data m) with
          | Ok mx => Ok (if negb (sp_nnz m =? shape_product (sp_shape m))%nat
                         then py_max (dtype_type (sp_dtype m) 0) mx else mx)
          | Raise e => Raise e
          end, h).
Proof.
  intros E. unfold minmax_max. step.
  destruct (sp_nnz m =? 0)%nat; [done |].
  unfold lift. rewrite run_bind.
  destruct (np_max (sp_data m)); [| done].
  by destruct (negb _).
Qed.

Lemma run_minmax_min h l m :
  h !! l = Some m →
  minmax_min l h
  = (if (sp_nnz m =? 0)%nat then Ok (dtype_type (sp_dtype m) 0)
     else match np_min (sp_data m) with
          | Ok mn => Ok (if negb (sp_nnz m =? shape_product (sp_shape m))%nat
                         then py_min (dtype_type (sp_dtype m) 0) mn else mn)
          | Raise e => Raise e
          end, h).
Proof.
  intros E. unfold minmax_min. step.
  destruct (sp_nnz m =? 0)%nat; [done |].
  unfold lift. rewrite run_bind.
  destruct (np_min (sp_data m)); [| done].
  by destruct (negb _).
Qed.





(** ** The boolean operators on two sparse matrices *)

Lemma get_at_map_self {B} (f : nat * nat → B) (k : nat * nat) cs :
  Lib.get_at k cs (f <$> cs) = if decide (k ∈ cs) then Some (f k) else None.
Proof.
  induction cs as [| c cs IH].
  - destruct (decide (k ∈ [])) as [Hk |]; [by apply elem_of_nil in Hk | done].
  - cbn [fmap list_fmap Lib.get_at].
    change (list_fmap _ _ f cs) with (f <$> cs). rewrite IH.
    destruct (decide (c = k)) as [-> | Hne].
    + destruct (decide (k ∈ k :: cs)) as [| Hn]; [done |].
      exfalso. apply Hn. left.
    + destruct (decide (k ∈ cs)) as [Hk | Hk];
        destruct (decide (k ∈ c :: cs)) as [Hk' | Hk']; try done.
      * exfalso. apply Hk'. by right.
      * apply elem_of_cons in Hk' as [-> | Hk']; done.
Qed.

Lemma nonzero_zero (t : dtype) : nonzero (dtype_type t 0) = false.
Proof. unfold nonzero. by rewrite dtype_zero_num. Qed.

(** [m.astype(bool)] reads as the truth values of the elements of [m]. *)
Lemma element_astype_bool (m : spmatrix) (k : nat * nat) :
  Lib.element (with_data_of m (arr_astype (sp_data m) DBool)) k
  = SBool (nonzero (Lib.element m k)).
Proof.
  unfold Lib.element, nonzero, Lib.bool_at, Lib.int_at. simpl.
  destruct (sp_data m) as [l | w l]; simpl.
  - f_equal. by destruct (default false (Lib.get_at k (sp_coords m) l)).
  - rewrite get_at_fmap. by destruct (Lib.get_at k (sp_coords m) l).
Qed.

(** [m.astype(bool).astype(int)] reads as 1 where [m] is not zero, as 0
    elsewhere. *)
Lemma element_astype_bool_int (m : spmatrix) (k : nat * nat) :
  Lib.element
    (with_data_of (with_data_of m (arr_astype (sp_data m) DBool))
       (arr_astype (arr_astype (sp_data m) DBool) (DInt W64))) k
  = SInt (b2z (nonzero (Lib.element m k))).
Proof.
  unfold Lib.element, nonzero, Lib.bool_at, Lib.int_at. simpl.
  destruct (sp_data m) as [l | w l]; simpl; rewrite ?get_at_fmap.
  - f_equal. by destruct (Lib.get_at k (sp_coords m) l) as [[] |].
  - f_equal. by destruct (Lib.get_at k (sp_coords m) l).
Qed.

Lemma wrap_small (x y : bool) : wrap W64 (b2z x + b2z y) = b2z x + b2z y.
Proof. by destruct x, y. Qed.

(** The sum [a.astype(bool).astype(int) + b.astype(bool)] of two matrices
    of one shape: a new matrix that holds, at every coordinate stored in
    [a] or in [b], the number of the two that are not zero there. *)
Lemma run_bool_sum h la lb a b :
  h !! la = Some a → h !! lb = Some b → sp_shape a = sp_shape b →
  ∃ l' h' s,
    bool_sum la (VSpm lb) h = (Ok (VSpm l'), h')
    ∧ h' !! l' = Some s ∧ h' !! la = Some a ∧ h' !! lb = Some b
    ∧ sp_shape s = sp_shape a
    ∧ ∀ k, Lib.get_at k (sp_coords s) (arr_items (sp_data s))
           = (if decide (k ∈ sp_coords s)
              then Some (SInt (b2z (nonzero (Lib.element a k))
                               + b2z (nonzero (Lib.element b k))))
              else None)
           ∧ (k ∉ sp_coords s →
              nonzero (Lib.element a k) = false ∧ nonzero (Lib.element b k) = false).
Proof.
  intros Ea Eb Hs. unfold bool_sum. cbn [has_astype].
  set (a1 := with_data_of a (arr_astype (sp_data a) DBool)).
  set (l1 := fresh (dom h)). set (h1 := <[l1 := a1]> h).
  assert (E1 : h1 !! l1 = Some a1) by apply lookup_insert_eq.
  erewrite run_bind_ok.
  2: { unfold dm_astype. step. by apply run_with_data. }
  fold a1 l1 h1.
  set (a2 := with_data_of a1 (arr_astype (sp_data a1) (DInt W64))).
  set (l2 := fresh (dom h1)). set (h2 := <[l2 := a2]> h1).
  assert (E2 : h2 !! l2 = Some a2) by apply lookup_insert_eq.
  erewrite run_bind_ok.
  2: { unfold dm_astype. step. by apply (run_with_data h1 l1 a1). }
  fold a2 l2 h2.
  assert (Eb2 : h2 !! lb = Some b) by (by do 2 apply alloc_keeps).
  set (b1 := with_data_of b (arr_astype (sp_data b) DBool)).
  set (l3 := fresh (dom h2)). set (h3 := <[l3 := b1]> h2).
  assert (E3 : h3 !! l3 = Some b1) by apply lookup_insert_eq.
  erewrite run_bind_ok.
  2: { unfold value_astype.
       erewrite run_bind_ok by (by apply (run_sp_astype h2 lb b)). reflexivity. }
  fold b1 l3 h3.
  assert (E23 : h3 !! l2 = Some a2) by (by apply alloc_keeps).
  unfold py_add. step. unfold sparse_plus_sparse.
  rewrite decide_True by done. unfold lift.
  eexists _, _, _.
  split; [rewrite run_bind, run_alloc; cbv beta iota; by rewrite run_ret |].
  split; [apply lookup_insert_eq |].
  split; [by do 4 apply alloc_keeps |].
  split; [by do 4 apply alloc_keeps |].
  split; [done |]. intros k. cbn [sp_coords sp_data].
  set (cs := (sp_coords a2 ++ filter (λ k0, k0 ∉ sp_coords a2) (sp_coords b1))%list).
  assert (Hel : ∀ k0, scalar_num (Lib.element a2 k0) + scalar_num (Lib.element b1 k0)
                      = b2z (nonzero (Lib.element a k0))
                        + b2z (nonzero (Lib.element b k0))).
  { intros k0. subst a2 a1 b1.
    rewrite element_astype_bool_int, element_astype_bool. simpl.
    by destruct (nonzero (Lib.element b k0)). }
  split.
  - assert (Hdt : sp_dtype a2 = DInt W64).
    { subst a2 a1. unfold sp_dtype. simpl. by destruct (sp_data a). }
    rewrite Hdt. unfold upcast, arr_of_nums. cbv beta iota.
    cbn [arr_items]. to_fmap.
    rewrite <- !list_fmap_compose, get_at_map_self.
    destruct (decide (k ∈ cs)); [| done].
    unfold compose. rewrite Hel. by rewrite wrap_small.
  - intros Hk. subst cs. apply not_elem_of_app in Hk as [Hka Hkb].
    assert (Hkb' : k ∉ sp_coords b).
    { intros Hin. apply Hkb. apply list_elem_of_filter. by split. }
    split.
    + rewrite (element_unstored a k) by done. apply nonzero_zero.
    + rewrite (element_unstored b k) by done. apply nonzero_zero.
Qed.

Lemma run_boolean_operator (op : relop) (c : Z) h la lb a b :
  h !! la = Some a → h !! lb = Some b → sp_shape a = sp_shape b →
  relop_scalar op (SInt 0) (SInt c) = false →
  ∃ l' h' r,
    (s ← bool_sum la (VSpm lb); compare_with s op c) h = (Ok (VSpm l'), h')
    ∧ h' !! l' = Some r ∧ h' !! la = Some a ∧ h' !! lb = Some b
    ∧ sp_shape r = sp_shape a
    ∧ ∀ k, Lib.element r k
           = SBool (relop_num op (b2z (nonzero (Lib.element a k))
                                  + b2z (nonzero (Lib.element b k))) c).
Proof.
  intros Ea Eb Hs Hz.
  destruct (run_bool_sum h la lb a b Ea Eb Hs)
    as (l4 & h4 & s & Hrun & E4 & Ea4 & Eb4 & Hs4 & Hget).
  erewrite run_bind_ok by exact Hrun. unfold compare_with.
  erewrite run_relative_plain by done.
  eexists _, _, _. split; [reflexivity |].
  split; [apply lookup_insert_eq |].
  split; [by apply alloc_keeps |]. split; [by apply alloc_keeps |].
  split; [done |]. intros k. rewrite element_compared.
  destruct (Hget k) as [-> Hout].
  destruct (decide (k ∈ sp_coords s)) as [| Hk]; [done |].
  destruct (Hout Hk) as [-> ->]. simpl. f_equal. symmetry. exact Hz.
Qed.

(** X9: for two sparse matrices [a] and [b] of one shape, [a & b],
    [a | b] and [a ^ b] are new plain boolean matrices of that shape that
    read, at every position, as the conjunction, the disjunction and the
    exclusive disjunction of "the element of [a] is not zero" and "the
    element of [b] is not zero"; [a] and [b] stay as they were. *)
Theorem X9_boolean_operators (h : gmap loc spmatrix) (la lb : loc) (a b : spmatrix) :
  h !! la = Some a →
  h !! lb = Some b →
  Lib.is_data_matrix (sp_format a) = true →
  canonical a = true → canonical b = true →
  sp_shape a = sp_shape b →
  (∃ l' h' r,
     dm_and la (VSpm lb) h = (Ok (VSpm l'), h')
     ∧ h' !! l' = Some r ∧ h' !! la = Some a ∧ h' !! lb = Some b
     ∧ sp_shape r = sp_shape a
     ∧ ∀ k, Lib.element r k
            = SBool (nonzero (Lib.element a k) && nonzero (Lib.element b k)))
  ∧ (∃ l' h' r,
       dm_or la (VSpm lb) h = (Ok (VSpm l'), h')
       ∧ h' !! l' = Some r ∧ h' !! la = Some a ∧ h' !! lb = Some b
       ∧ sp_shape r = sp_shape a
       ∧ ∀ k, Lib.element r k
              = SBool (nonzero (Lib.element a k) || nonzero (Lib.element b k)))
  ∧ (∃ l' h' r,
       dm_xor la (VSpm lb) h = (Ok (VSpm l'), h')
       ∧ h' !! l' = Some r ∧ h' !! la = Some a ∧ h' !! lb = Some b
       ∧ sp_shape r = sp_shape a
       ∧ ∀ k, Lib.element r k
              = SBool (xorb (nonzero (Lib.element a k)) (nonzero (Lib.element b k)))).
Proof.
  intros Ea Eb _ _ _ Hs. split; [| split].
  - destruct (run_boolean_operator OpEq 2 h la lb a b Ea Eb Hs eq_refl)
      as (l' & h' & r & Hrun & ? & ? & ? & ? & Hk).
    exists l', h', r. repeat (split; [done |]).
    intros k. rewrite Hk.
    by destruct (nonzero (Lib.element a k)), (nonzero (Lib.element b k)).
  - destruct (run_boolean_operator OpGt 0 h la lb a b Ea Eb Hs eq_refl)
      as (l' & h' & r & Hrun & ? & ? & ? & ? & Hk).
    exists l', h', r. repeat (split; [done |]).
    intros k. rewrite Hk.
    by destruct (nonzero (Lib.element a k)), (nonzero (Lib.element b k)).
  - destruct (run_boolean_operator OpEq 1 h la lb a b Ea Eb Hs eq_refl)
      as (l' & h' & r & Hrun & ? & ? & ? & ? & Hk).
    exists l', h', r. repeat (split; [done |]).
    intros k. rewrite Hk.
    by destruct (nonzero (Lib.element a k)), (nonzero (Lib.element b k)).
Qed.

Lemma X9_boolean_operators_sample :
  (∃ l' h' r,
     dm_and 0%nat (VSpm 1%nat) sample_store = (Ok (VSpm l'), h')
     ∧ h' !! l' = Some r ∧ h' !! 0%nat = Some sample_ints
     ∧ h' !! 1%nat = Some sample_bools
     ∧ sp_shape r = sp_shape sample_ints
     ∧ ∀ k, Lib.element r k
            = SBool (nonzero (Lib.element sample_ints k)
                     && nonzero (Lib.element sample_bools k)))
  ∧ (∃ l' h' r,
       dm_or 0%nat (VSpm 1%nat) sample_store = (Ok (VSpm l'), h')
       ∧ h' !! l' = Some r ∧ h' !! 0%nat = Some sample_ints
       ∧ h' !! 1%nat = Some sample_bools
       ∧ sp_shape r = sp_shape sample_ints
       ∧ ∀ k, Lib.element r k
              = SBool (nonzero (Lib.element sample_ints k)
                       || nonzero (Lib.element sample_bools k)))
  ∧ (∃ l' h' r,
       dm_xor 0%nat (VSpm 1%nat) sample_store = (Ok (VSpm l'), h')
       ∧ h' !! l' = Some r ∧ h' !! 0%nat = Some sample_ints
       ∧ h' !! 1%nat = Some sample_bools
       ∧ sp_shape r = sp_shape sample_ints
       ∧ ∀ k, Lib.element r k
              = SBool (xorb (nonzero (Lib.element sample_ints k))
                         (nonzero (Lib.element sample_bools k)))).
Proof.
  apply (X9_boolean_operators sample_store 0%nat 1%nat sample_ints sample_bools);
    reflexivity.
Defined.

(** ** Elementwise methods *)

(** A buffer made elementwise by an [f] with [f 0 = 0], put on the
    pattern of [m], reads as [f] of the elements of [m]: the implicit zeros
    are right as they are. *)
Lemma element_elementwise (m : spmatrix) (t : dtype) (f : Z → Z) (k : nat * nat) :
  f 0 = 0 →
  Lib.element (with_data_of m (arr_of_nums t (f <$> arr_nums (sp_data m)))) k
  = dtype_type t (f (scalar_num (Lib.element m k))).
Proof.
  intros Hf. rewrite (element_stored m k).
  unfold Lib.element, arr_nums, arr_of_nums, Lib.bool_at, Lib.int_at.
  cbn [with_data_of sp_data sp_coords].
  destruct t as [| w]; cbn [dtype_type]; rewrite <- !list_fmap_compose, get_at_fmap;
    destruct (Lib.get_at k (sp_coords m) (arr_items (sp_data m))); simpl;
    rewrite ?dtype_zero_num, ?Hf; try done.
  by destruct w.
Qed.

Lemma np_sign_elementwise (a : ndarray) :
  np_sign a = Ok (arr_of_nums (np_sign_dtype (arr_dtype a)) (Z.sgn <$> arr_nums a)).
Proof.
  unfold np_sign, arr_nums. destruct a as [l | w l]; simpl; f_equal; f_equal;
    rewrite <- !list_fmap_compose; apply list_fmap_ext; intros _ x _; simpl.
  - by destruct x.
  - destruct w, (Z.sgn_spec x) as [[_ ->] | [[_ ->] | [_ ->]]]; done.
Qed.

Lemma arr_abs_elementwise (a : ndarray) :
  arr_abs a = arr_of_nums (arr_dtype a) (Z.abs <$> arr_nums a).
Proof.
  unfold arr_abs, arr_nums. destruct a as [l | w l]; simpl; f_equal;
    rewrite <- !list_fmap_compose.
  - rewrite <- (list_fmap_id l) at 1. apply list_fmap_ext. intros _ x _.
    by destruct x.
  - done.
Qed.





(** X12: [m *= s] with a scalar [s] (a boolean, or an integer of at most
    64 bits) on a [_data_matrix] [m] of an integer dtype works in place: it returns [m] itself, makes no object, keeps the
    pattern, and [m] then reads at every position as the product of its
    former element with [s], wrapped in the width of the dtype. *)
Theorem X12_imul_scalar_in_place (h : gmap loc spmatrix) (l : loc) (m : spmatrix)
    (s : scalar) (w : int_width) :
  h !! l = Some m →
  sp_dtype m = DInt w →
  fits_int64 s = true →
  ∃ m',
    dm_imul l (VScalar s) h = (Ok (VSpm l), <[l := m']> h)
    ∧ dom (<[l := m']> h) = dom h
    ∧ sp_format m' = sp_format m ∧ sp_shape m' = sp_shape m
    ∧ sp_coords m' = sp_coords m ∧ sp_dtype m' = DInt w
    ∧ ∀ k, Lib.element m' k
           = SInt (wrap w (scalar_num (Lib.element m k) * scalar_num s)).
Proof.
  intros E Hw _. unfold dm_imul. cbn [Lib.isscalarlike]. step.
  unfold store.
  eexists. split; [reflexivity |].
  split. { apply dom_insert_lookup_L. by eexists. }
  unfold sp_dtype, Lib.element, Lib.int_at in *.
  cbn [with_data_of sp_data sp_coords sp_format sp_shape].
  destruct (sp_data m) as [| w' zs]; [done |]. injection Hw as ->.
  do 4 (split; [done |]). intros k. simpl. rewrite get_at_fmap.
  destruct (Lib.get_at k (sp_coords m) zs); simpl; [done |]. by destruct w.
Qed.

Lemma X12_imul_scalar_sample :
  ∃ m',
    dm_imul 0%nat (VScalar (SInt 50)) sample_store
    = (Ok (VSpm 0%nat), <[0%nat := m']> sample_store)
    ∧ dom (<[0%nat := m']> sample_store) = dom sample_store
    ∧ sp_format m' = sp_format sample_ints ∧ sp_shape m' = sp_shape sample_ints
    ∧ sp_coords m' = sp_coords sample_ints ∧ sp_dtype m' = DInt W8
    ∧ ∀ k, Lib.element m' k
           = SInt (wrap W8 (scalar_num (Lib.element sample_ints k) * scalar_num (SInt 50))).
Proof.
  apply (X12_imul_scalar_in_place sample_store 0%nat sample_ints (SInt 50) W8);
    reflexivity.
Defined.

(** ** What the constructor makes *)

Lemma nonzero_bool (b : bool) : nonzero (SBool b) = b.
Proof. by destruct b. Qed.

Lemma element_bool (m : spmatrix) (k : nat * nat) :
  sp_dtype m = DBool → ∃ b, Lib.element m k = SBool b.
Proof.
  intros Hb. destruct (bool_data m Hb) as [l Hl].
  unfold Lib.element. rewrite Hl. by eexists.
Qed.



(** ** Failing accesses *)

Lemma run_mtm_getitem_any w h n key :
  h !! negative w = Some n →
  mtm_getitem w key h
  = match Lib.item_access_of (sp_format n) with
    | Lib.ItemAbsent => (Raise AttributeError, h)
    | _ => match Lib.getitem n key with
           | Ok v => py_invert v h
           | Raise e => (Raise e, h)
           end
    end.
Proof.
  intros E. unfold mtm_getitem, mtm_call.
  change (mtm_getattr w "__getitem__") with (_delegate_inverted_get "__getitem__" w).
  unfold _delegate_inverted_get, sp_getattr.
  rewrite !run_bind. erewrite run_load by eassumption.
  change (lookup_name "__getitem__" sp_class) with (Some AGetitem). cbv beta iota.
  destruct (Lib.item_access_of (sp_format n)) eqn:Ha; try done.
  all: unfold mret, M_ret, ret; cbv beta iota; cbn [py_call]; rewrite run_bind;
    erewrite run_call_getitem by eassumption;
    by destruct (Lib.getitem n key).
Qed.

Lemma run_mtm_setitem_any w h n key x :
  h !! negative w = Some n →
  mtm_setitem w key (VScalar x) h
  = match Lib.item_access_of (sp_format n) with
    | Lib.ItemAbsent => (Raise AttributeError, h)
    | Lib.ItemUnimplemented => (Raise NotImplementedError, h)
    | Lib.ItemAccess =>
        match key with
        | VTuple i j =>
            if Lib.in_range (sp_shape n) (i, j)
            then (Ok VNone, <[negative w := Lib.with_entry n (i, j) (scalar_invert x)]> h)
            else (Raise IndexError, h)
        | _ => (Raise IndexError, h)
        end
    end.
Proof.
  intros E. unfold mtm_setitem, mtm_call.
  change (mtm_getattr w "__setitem__") with (mtm_setitem_property w).
  unfold mtm_setitem_property, sp_getattr.
  rewrite !run_bind. erewrite run_load by eassumption.
  change (lookup_name "__setitem__" sp_class) with (Some ASetitem). cbv beta iota.
  destruct (Lib.item_access_of (sp_format n)) eqn:Ha; try done.
  all: unfold mret, M_ret, ret; cbv beta iota; cbn [py_call];
    unfold np_invert, py_invert, mret, M_ret, ret;
    rewrite run_bind; cbv beta iota; rewrite run_bind;
    unfold sp_call; rewrite run_bind; erewrite run_load by eassumption;
    change (lookup_name "__setitem__" sp_class) with (Some ASetitem);
    cbv beta iota; unfold Lib.setitem;
    rewrite run_bind; erewrite run_load by eassumption; rewrite Ha.
  - destruct key; try done.
    destruct (Lib.in_range (sp_shape n) (a, b)); done.
  - done.
Qed.



(** ** Rows and columns through the wrapper *)

Lemma select_row {A} (i j : nat) cs (xs : list A) :
  Lib.get_at (0%nat, j)
    ((λ k : nat * nat, (0%nat, k.2)) <$> (Lib.select (λ k, (k.1 =? i)%nat) cs xs).1)
    (Lib.select (λ k, (k.1 =? i)%nat) cs xs).2
  = Lib.get_at (i, j) cs xs.
Proof.
  revert xs. induction cs as [| [ci cj] cs IH]; intros [| x xs]; try done.
  cbn [Lib.select Lib.get_at fst]. specialize (IH xs).
  destruct (Nat.eqb_spec ci i) as [-> | Hne]; cbn [fst snd fmap list_fmap Lib.get_at].
  - destruct (decide ((i, cj) = (i, j))) as [[= ->] | Hn].
    + by rewrite decide_True.
    + rewrite decide_False by congruence. exact IH.
  - rewrite decide_False by congruence. exact IH.
Qed.

Lemma select_column {A} (i j : nat) cs (xs : list A) :
  Lib.get_at (i, 0%nat)
    ((λ k : nat * nat, (k.1, 0%nat)) <$> (Lib.select (λ k, (k.2 =? j)%nat) cs xs).1)
    (Lib.select (λ k, (k.2 =? j)%nat) cs xs).2
  = Lib.get_at (i, j) cs xs.
Proof.
  revert xs. induction cs as [| [ci cj] cs IH]; intros [| x xs]; try done.
  cbn [Lib.select Lib.get_at snd]. specialize (IH xs).
  destruct (Nat.eqb_spec cj j) as [-> | Hne]; cbn [fst snd fmap list_fmap Lib.get_at].
  - destruct (decide ((ci, j) = (i, j))) as [[= ->] | Hn].
    + by rewrite decide_True.
    + rewrite decide_False by congruence. exact IH.
  - rewrite decide_False by congruence. exact IH.
Qed.

Lemma run_getrow h l n (z : Z) :
  h !! l = Some n → 0 ≤ z < Z.of_nat (sp_shape n).1 →
  ∃ r,
    Lib.getrow l (VScalar (SInt z)) h = (Ok (fresh (dom h)), <[fresh (dom h) := r]> h)
    ∧ sp_shape r = (1%nat, (sp_shape n).2) ∧ sp_dtype r = sp_dtype n
    ∧ ∀ j, Lib.element r (0%nat, j) = Lib.element n (Z.to_nat z, j).
Proof.
  intros E Hz. unfold Lib.getrow. step.
  assert (Hin : (0 <=? z) && (z <? Z.of_nat (sp_shape n).1) = true)
    by (apply andb_true_iff; split; [apply Z.leb_le | apply Z.ltb_lt]; lia).
  rewrite Hin, run_alloc. eexists. split; [reflexivity |].
  split; [done |]. unfold sp_dtype, Lib.element, Lib.select_data, Lib.bool_at, Lib.int_at.
  cbn [sp_data sp_coords].
  destruct (sp_data n); cbn [fst snd sp_data sp_coords arr_dtype];
    (split; [done |]); intros j; by rewrite select_row.
Qed.

Lemma run_getcol h l n (z : Z) :
  h !! l = Some n → 0 ≤ z < Z.of_nat (sp_shape n).2 →
  ∃ r,
    Lib.getcol l (VScalar (SInt z)) h = (Ok (fresh (dom h)), <[fresh (dom h) := r]> h)
    ∧ sp_shape r = ((sp_shape n).1, 1%nat) ∧ sp_dtype r = sp_dtype n
    ∧ ∀ i, Lib.element r (i, 0%nat) = Lib.element n (i, Z.to_nat z).
Proof.
  intros E Hz. unfold Lib.getcol. step.
  assert (Hin : (0 <=? z) && (z <? Z.of_nat (sp_shape n).2) = true)
    by (apply andb_true_iff; split; [apply Z.leb_le | apply Z.ltb_lt]; lia).
  rewrite Hin, run_alloc. eexists. split; [reflexivity |].
  split; [done |]. unfold sp_dtype, Lib.element, Lib.select_data, Lib.bool_at, Lib.int_at.
  cbn [sp_data sp_coords].
  destruct (sp_data n); cbn [fst snd sp_data sp_coords arr_dtype];
    (split; [done |]); intros i; by rewrite select_column.
Qed.

(** X15: on a [mostly_true_matrix] [w] (its complement boolean),
    [w.getrow(i)] for a row [i] of the matrix is a wrapper of shape
    [(1, columns)] that reads at [(0, j)] what [w] reads at [(i, j)], and
    [w.getcol(j)] for a column [j] one of shape [(rows, 1)] that reads at
    [(i, 0)] what [w] reads at [(i, j)]; the complement of [w] is not
    changed. *)
Theorem X15_row_and_column (w : mtm) (h : gmap loc spmatrix) (n : spmatrix)
    (i j : nat) :
  h !! negative w = Some n →
  sp_dtype n = DBool →
  Lib.in_range (sp_shape n) (i, j) = true →
  (∃ r h' nr,
     mtm_call w "getrow" [VScalar (SInt (Z.of_nat i))] h = (Ok (VMtm r), h')
     ∧ h' !! negative r = Some nr ∧ sp_shape nr = (1%nat, (sp_shape n).2)
     ∧ h' !! negative w = Some n
     ∧ ∀ j', read h' (VMtm r) (0%nat, j') = read h (VMtm w) (i, j'))
  ∧ (∃ c h' nc,
       mtm_call w "getcol" [VScalar (SInt (Z.of_nat j))] h = (Ok (VMtm c), h')
       ∧ h' !! negative c = Some nc ∧ sp_shape nc = ((sp_shape n).1, 1%nat)
       ∧ h' !! negative w = Some n
       ∧ ∀ i', read h' (VMtm c) (i', 0%nat) = read h (VMtm w) (i', j)).
Proof.
  intros E Hb Hr. unfold Lib.in_range in Hr. simpl in Hr.
  apply andb_true_iff in Hr as [Hi Hj]. apply Nat.ltb_lt in Hi, Hj. split.
  - destruct (run_getrow h (negative w) n (Z.of_nat i) E) as (nr & Hrun & Hs & Hd & Hk);
      [lia |].
    exists (Mtm (fresh (dom h))), (<[fresh (dom h) := nr]> h), nr.
    split.
    { apply (run_mtm_call_nocopy w h n "getrow" _ _ _ nr); try done.
      - eapply run_nocopy_getattr; eauto. eexists. split; [reflexivity | exact I].
      - unfold sp_call. step. simpl. by erewrite run_bind_ok by exact Hrun.
      - apply lookup_insert_eq.
      - by rewrite Hd. }
    split; [apply lookup_insert_eq |]. split; [done |].
    split; [by apply alloc_keeps |]. intros j'.
    erewrite !read_mtm by (first [apply lookup_insert_eq | eassumption]).
    by rewrite Hk, Nat2Z.id.
  - destruct (run_getcol h (negative w) n (Z.of_nat j) E) as (nc & Hrun & Hs & Hd & Hk);
      [lia |].
    exists (Mtm (fresh (dom h))), (<[fresh (dom h) := nc]> h), nc.
    split.
    { apply (run_mtm_call_nocopy w h n "getcol" _ _ _ nc); try done.
      - eapply run_nocopy_getattr; eauto. eexists. split; [reflexivity | exact I].
      - unfold sp_call. step. simpl. by erewrite run_bind_ok by exact Hrun.
      - apply lookup_insert_eq.
      - by rewrite Hd. }
    split; [apply lookup_insert_eq |]. split; [done |].
    split; [by apply alloc_keeps |]. intros i'.
    erewrite !read_mtm by (first [apply lookup_insert_eq | eassumption]).
    by rewrite Hk, Nat2Z.id.
Qed.

Lemma X15_row_and_column_sample :
  (∃ r h' nr,
     mtm_call (Mtm 1%nat) "getrow" [VScalar (SInt (Z.of_nat 1))] sample_store
     = (Ok (VMtm r), h')
     ∧ h' !! negative r = Some nr ∧ sp_shape nr = (1%nat, (sp_shape sample_bools).2)
     ∧ h' !! negative (Mtm 1%nat) = Some sample_bools
     ∧ ∀ j', read h' (VMtm r) (0%nat, j') = read sample_store (VMtm (Mtm 1%nat)) (1%nat, j'))
  ∧ (∃ c h' nc,
       mtm_call (Mtm 1%nat) "getcol" [VScalar (SInt (Z.of_nat 2))] sample_store
       = (Ok (VMtm c), h')
       ∧ h' !! negative c = Some nc ∧ sp_shape nc = ((sp_shape sample_bools).1, 1%nat)
       ∧ h' !! negative (Mtm 1%nat) = Some sample_bools
       ∧ ∀ i', read h' (VMtm c) (i', 0%nat) = read sample_store (VMtm (Mtm 1%nat)) (i', 2%nat)).
Proof.
  apply (X15_row_and_column (Mtm 1%nat) sample_store sample_bools 1 2); reflexivity.
Defined.

(** ** The printed wrapper *)

Section PrintedWrapper.
Import Stdlib.Strings.Ascii.

Lemma plain_char_letters (c : Ascii.ascii) :
  plain_char c = true →
  c ≠ "T"%char ∧ c ≠ "F"%char ∧ c ≠ "e"%char ∧ c ≠ "a"%char ∧ c ≠ "s"%char.
Proof. intros H. repeat split; intros ->; discriminate H. Qed.

Lemma replace_pass_char (c0 : Ascii.ascii) (old' new : string) (c : Ascii.ascii)
    (s : string) :
  c ≠ c0 →
  py_replace_from (String c0 old') new 0 (String c s)
  = String c (py_replace_from (String c0 old') new 0 s).
Proof.
  intros Hc. cbn [py_replace_from String.prefix].
  destruct (Ascii.ascii_dec c0 c) as [-> |]; [done | reflexivity].
Qed.

Lemma append_cons (c : Ascii.ascii) (u v : string) :
  String c u ++ v = String c (u ++ v).
Proof. reflexivity. Qed.

Lemma append_empty_r (u : string) : u ++ "" = u.
Proof. induction u as [| c u IH]; [done |]. by rewrite append_cons, IH. Qed.

Lemma replace_pass_plain (c0 : Ascii.ascii) (old' new u rest : string) :
  (∀ c, plain_char c = true → c ≠ c0) →
  plain u = true →
  py_replace_from (String c0 old') new 0 (u ++ rest)
  = u ++ py_replace_from (String c0 old') new 0 rest.
Proof.
  intros Hc. induction u as [| c u IH]; intros Hu; [done |].
  cbn [plain] in Hu. apply andb_true_iff in Hu as [Hcp Hu].
  rewrite !append_cons, replace_pass_char by (by apply Hc).
  by rewrite IH.
Qed.

(** The first character of a printout is plain, or the first of a word. *)
Lemma printout_head (word : bool → string) (P : Ascii.ascii → Prop)
    (items : list (string * bool)) (tail : string) :
  (∀ c, plain_char c = true → P c) →
  (∀ b, ∃ c w, word b = String c w ∧ P c) →
  forallb (λ it, plain it.1) items = true → plain tail = true →
  match printout word items tail with
  | String c _ => P c
  | EmptyString => True
  end.
Proof.
  intros Hp Hw Hi Ht. destruct items as [| [sep b] rest]; cbn [printout].
  - destruct tail as [| c t]; [done |]. cbn [plain] in Ht.
    apply andb_true_iff in Ht as [Hc _]. by apply Hp.
  - cbn [forallb fst] in Hi. apply andb_true_iff in Hi as [Hs _].
    destruct sep as [| c sep].
    + destruct (Hw b) as (c & w & -> & Hc). done.
    + cbn [plain] in Hs. apply andb_true_iff in Hs as [Hc _]. by apply Hp.
Qed.

(** One [replace] over a printout whose words it either rewrites or
    passes. *)
Lemma replace_printout (c0 : Ascii.ascii) (old' new : string)
    (win wout : bool → string) (P : Ascii.ascii → Prop)
    (items : list (string * bool)) (tail : string) :
  (∀ c, plain_char c = true → c ≠ c0 ∧ P c) →
  (∀ b, ∃ c w, win b = String c w ∧ P c) →
  (∀ b R, match R with String c _ => P c | EmptyString => True end →
          py_replace_from (String c0 old') new 0 (win b ++ R)
          = wout b ++ py_replace_from (String c0 old') new 0 R) →
  forallb (λ it, plain it.1) items = true → plain tail = true →
  py_replace (String c0 old') new (printout win items tail)
  = printout wout items tail.
Proof.
  intros Hp Hw Hword Hi Ht. unfold py_replace.
  induction items as [| [sep b] rest IH]; cbn [printout].
  - rewrite <- (append_empty_r tail) at 1.
    rewrite replace_pass_plain; [| intros c Hc; by apply Hp | done].
    by rewrite append_empty_r.
  - cbn [forallb fst] in Hi. apply andb_true_iff in Hi as [Hs Hi].
    rewrite replace_pass_plain; [| intros c Hc; by apply Hp | done].
    rewrite Hword; [by rewrite IH |].
    apply printout_head; try done. intros c Hc. by apply Hp.
Qed.

Lemma append_nil_l (v : string) : "" ++ v = v.
Proof. reflexivity. Qed.

Lemma prefix_append (u v : string) : String.prefix u (u ++ v) = true.
Proof.
  induction u as [| c u IH]; [by destruct v |].
  rewrite append_cons. cbn [String.prefix].
  by destruct (ascii_dec c c).
Qed.

Lemma replace_skip (old new u rest : string) :
  py_replace_from old new (String.length u) (u ++ rest)
  = py_replace_from old new 0 rest.
Proof.
  induction u as [| c u IH]; [done |].
  rewrite append_cons. cbn [String.length py_replace_from]. exact IH.
Qed.

(** An occurrence of [old] at the front is replaced, and the search goes
    on behind it. *)
Lemma replace_match (c0 : ascii) (old' new rest : string) :
  py_replace_from (String c0 old') new 0 (String c0 old' ++ rest)
  = new ++ py_replace_from (String c0 old') new 0 rest.
Proof.
  pose proof (prefix_append (String c0 old') rest) as Hp.
  rewrite append_cons in *. cbn [py_replace_from]. rewrite Hp.
  cbn [String.length]. rewrite Nat.sub_1_r. cbn [Nat.pred].
  by rewrite replace_skip.
Qed.

(** The first character of [old] is there but the second is not. *)
Lemma replace_false_start (c0 c1 : ascii) (old' new R : string) :
  match R with String c _ => c ≠ c1 | EmptyString => True end →
  py_replace_from (String c0 (String c1 old')) new 0 (String c0 R)
  = String c0 (py_replace_from (String c0 (String c1 old')) new 0 R).
Proof.
  intros HR. cbn [py_replace_from String.prefix].
  destruct (ascii_dec c0 c0); [| done].
  destruct R as [| c R]; cbn [String.prefix]; [reflexivity |].
  destruct (ascii_dec c1 c) as [<- |]; [done | reflexivity].
Qed.

(** X16: [str(w)] swaps the truth values in the printed complement.  If
    [str(w.negative)] is a text of separators and the words [True] and
    [False], its separators and its tail holding no letter of the two
    words, then [str(w)] is that text with every [True] turned into
    [False] and every [False] into [True]. *)
Theorem X16_str_swaps_truth_words (items : list (string * bool)) (tail : string) :
  forallb (λ it, plain it.1) items = true →
  plain tail = true →
  mtm_str (printout truth_word items tail)
  = printout (λ b, truth_word (negb b)) items tail.
Proof.
  intros Hi Ht. unfold mtm_str.
  rewrite (replace_printout "T" "rue" "eslaF" truth_word
             (λ b, if b then "eslaF" else "False")%string (λ _, True));
    [| | | | done | done].
  - rewrite (replace_printout "F" "alse" "True"
               (λ b, if b then "eslaF" else "False")%string
               (λ b, if b then "eslaF" else "True")%string (λ c, c ≠ "a"%char));
      [| | | | done | done].
    + rewrite (replace_printout "e" "slaF" "False"
                 (λ b, if b then "eslaF" else "True")%string
                 (λ b, truth_word (negb b)) (λ c, c ≠ "s"%char));
        [done | | | | done | done].
      * intros c Hc. destruct (plain_char_letters c Hc) as (_ & _ & ? & _ & ?). done.
      * intros []; eexists _, _; (split; [reflexivity | done]).
      * intros [] R HR; cbn [truth_word negb]; [by rewrite replace_match |].
        rewrite !append_cons, append_nil_l, !replace_pass_char by done.
        by rewrite replace_false_start.
    + intros c Hc. destruct (plain_char_letters c Hc) as (_ & ? & _ & ? & _). done.
    + intros []; eexists _, _; (split; [reflexivity | done]).
    + intros [] R HR; [| by rewrite replace_match].
      rewrite !append_cons, append_nil_l, !replace_pass_char by done.
      by rewrite replace_false_start.
  - intros c Hc. destruct (plain_char_letters c Hc) as (? & _). done.
  - intros []; eexists _, _; (split; [reflexivity | done]).
  - intros [] R _; cbn [truth_word]; [by rewrite replace_match |].
    by rewrite !append_cons, append_nil_l, !replace_pass_char by done.
Qed.

Lemma X16_str_sample :
  mtm_str (printout truth_word [("  (0, 1) ", true); ("; (1, 2) ", false)] ".")
  = printout (λ b, truth_word (negb b)) [("  (0, 1) ", true); ("; (1, 2) ", false)] ".".
Proof.
  apply (X16_str_swaps_truth_words [("  (0, 1) ", true); ("; (1, 2) ", false)] ".");
    reflexivity.
Defined.

End PrintedWrapper.

(** ** [astype] and [copy] *)

Lemma arr_astype_elementwise (a : ndarray) (t : dtype) :
  arr_astype a t = arr_of_nums t (arr_nums a).
Proof.
  unfold arr_astype, arr_of_nums, arr_nums.
  destruct t, a as [l | w' l]; cbn [arr_items]; f_equal;
    rewrite <- ?list_fmap_compose;
    first [ done
          | by apply list_fmap_ext
          | apply list_fmap_ext; intros _ x _; by destruct x, w
          | rewrite <- (list_fmap_id l) at 1; apply list_fmap_ext;
            intros _ x _; by destruct x ].
Qed.



(** X18: [m.copy()] on a [_data_matrix] [m] is a new object with the
    contents of [m], and a later in-place [c *= s] on the copy [c] (of an
    integer dtype, [s] a boolean or an integer of at most 64 bits) leaves
    [m] as it was. *)
Theorem X18_copy_is_independent (h : gmap loc spmatrix) (l : loc) (m : spmatrix)
    (s : scalar) (w : int_width) :
  h !! l = Some m →
  sp_dtype m = DInt w →
  fits_int64 s = true →
  ∃ c h1 h2,
    dm_copy l h = (Ok c, h1)
    ∧ c ≠ l ∧ h !! c = None ∧ h1 !! c = Some m
    ∧ dm_imul c (VScalar s) h1 = (Ok (VSpm c), h2)
    ∧ h2 !! l = Some m
    ∧ h2 !! c = Some (with_data_of m (arr_imul (sp_data m) s)).
Proof.
  intros E _ _.
  set (c := fresh (dom h)). set (h1 := <[c := m]> h).
  assert (E1 : h1 !! c = Some m) by apply lookup_insert_eq.
  exists c, h1, (<[c := with_data_of m (arr_imul (sp_data m) s)]> h1).
  split.
  { unfold dm_copy. step. erewrite run_with_data by eassumption.
    by rewrite with_data_of_same. }
  split; [by eapply fresh_other |]. split; [apply fresh_unused |].
  split; [done |]. split.
  { unfold dm_imul. cbn [Lib.isscalarlike]. step. by unfold store. }
  split.
  - rewrite lookup_insert_ne by (by eapply fresh_other). by apply alloc_keeps.
  - apply lookup_insert_eq.
Qed.

Lemma X18_copy_sample :
  ∃ c h1 h2,
    dm_copy 0%nat sample_store = (Ok c, h1)
    ∧ c ≠ 0%nat ∧ sample_store !! c = None ∧ h1 !! c = Some sample_ints
    ∧ dm_imul c (VScalar (SInt 2)) h1 = (Ok (VSpm c), h2)
    ∧ h2 !! 0%nat = Some sample_ints
    ∧ h2 !! c = Some (with_data_of sample_ints (arr_imul (sp_data sample_ints) (SInt 2))).
Proof.
  apply (X18_copy_is_independent sample_store 0%nat sample_ints (SInt 2) W8);
    reflexivity.
Defined.
